(** * electron-window-state: window geometry persistence and reconciliation

    A shallow embedding of [src/index.js].  The module keeps one JavaScript
    object, [state], in a closure and mutates it; here every function takes
    the object and returns the new one.  A JavaScript object is a finite map
    from property names to values, an absent property reads as [undefined]. *)

From Stdlib Require Import ZArith QArith Qcanon Lia.
From stdpp Require Import gmap strings list fin_maps numbers.

Local Open Scope Z_scope.

(** ** JavaScript values *)

(** A JavaScript number: a finite value, [NaN] or an infinity.  Finite values
    are kept as exact rationals and integers as [Z], where JavaScript
    computes in doubles.  The two agree on the records and displays that
    [screenSized] and [displaySized] describe below: there every sum,
    difference and product of the program is an integer below 2^53, which a
    double holds exactly ([screenSized_exact]), and the only division, the
    one of [partOfWindowWithinBounds], is between integers up to an area
    below 2^52, for which the rounded quotient compares with 0, with 1 and
    with another quotient over the same area as the rational does.  Beyond
    that range a double rounds, and overflows to [Infinity] from 2^1024 on,
    which the integers here do not. *)
Inductive number :=
  | Fin (q : Qc)
  | NaN
  | PosInf
  | NegInf.

(** What a persisted record can hold in a property ([VObj] stands for any
    array or object: only its truthiness is observed). *)
Inductive value :=
  | VNull
  | VBool (b : bool)
  | VNum (n : number)
  | VStr (s : string)
  | VObj.

Definition int (z : Z) : value := VNum (Fin (Qc_of_Z z)).

(** [!!v] as JavaScript coerces a property read to a boolean. *)
Definition truthy (v : option value) : bool :=
  match v with
  | None | Some VNull => false
  | Some (VBool b) => b
  | Some (VNum (Fin q)) => negb (bool_decide (q = Qc_of_Z 0))
  | Some (VNum NaN) => false
  | Some (VNum _) => true
  | Some (VStr s) => negb (String.eqb s "")
  | Some VObj => true
  end.

(** [Number.isInteger]. *)
Definition isInteger (v : option value) : bool :=
  match v with
  | Some (VNum (Fin q)) => Pos.eqb (Qden q) 1
  | _ => false
  end.

(** The integer a property holds.  Every arithmetic read of the program
    happens behind [hasBounds], that is on a property for which [isInteger]
    holds; other contents read as 0 here and are never reached. *)
Definition to_Z (v : option value) : Z :=
  match v with
  | Some (VNum (Fin q)) => if Pos.eqb (Qden q) 1 then Qnum q else 0
  | _ => 0
  end.

Definition num (o : gmap string value) (k : string) : Z := to_Z (o !! k).

(** [a || b] on a property read. *)
Definition js_or (a : option value) (b : value) : value :=
  match a with
  | Some v => if truthy a then v else b
  | None => b
  end.

(** [a / b] for integers [a] and [b], as an exact quotient (see [number] for
    the range on which the double quotient behaves the same). *)
Definition js_div (a b : Z) : number :=
  if b =? 0 then
    if a =? 0 then NaN else if 0 <? a then PosInf else NegInf
  else Fin (Qc_of_Z a / Qc_of_Z b)%Qc.

(** [a > b] and [a < b] on numbers: false as soon as one side is [NaN]. *)
Definition js_lt (a b : number) : bool :=
  match a, b with
  | NaN, _ | _, NaN => false
  | Fin p, Fin q => bool_decide (p < q)%Qc
  | NegInf, (Fin _ | PosInf) => true
  | Fin _, PosInf => true
  | _, _ => false
  end.

Definition js_gt (a b : number) : bool := js_lt b a.

(** ** Bounds objects and configuration *)

(** Electron's [Rectangle]: the [bounds] of a display and the result of
    [win.getBounds()]. *)
Module Rect.
Record t := Make { x : Z; y : Z; width : Z; height : Z }.
End Rect.

(** The options the functions below read, after the defaults of
    [Object.assign] have been merged in. *)
Record config := Config {
  defaultWidth : option value;
  defaultHeight : option value;
  maximize : bool;
  fullScreen : bool
}.

(** ** Geometry *)

Definition hasBounds (state : option (gmap string value)) : bool :=
  match state with
  | None => false
  | Some st =>
      isInteger (st !! "x") &&
      isInteger (st !! "y") &&
      isInteger (st !! "width") && (0 <? num st "width") &&
      isInteger (st !! "height") && (0 <? num st "height")
  end.

Definition resetStateToDefault (cfg : config) : gmap string value :=
  {[ "width" := js_or (defaultWidth cfg) (int 800);
     "height" := js_or (defaultHeight cfg) (int 600);
     "x" := int 0;
     "y" := int 0 ]}.

Definition moveWithinBounds (bounds : Rect.t) (state : gmap string value)
  : gmap string value :=
  let state := <["width" := int (Z.min (num state "width") (Rect.width bounds))]> state in
  let state :=
    if num state "x" <? Rect.x bounds then
      <["x" := int (Rect.x bounds)]> state
    else if num state "x" + num state "width" >? Rect.x bounds + Rect.width bounds then
      <["x" := int (Rect.x bounds + Rect.width bounds - num state "width")]> state
    else state in
  let state := <["height" := int (Z.min (num state "height") (Rect.height bounds))]> state in
  if num state "y" <? Rect.y bounds then
    <["y" := int (Rect.y bounds)]> state
  else if num state "y" + num state "height" >? Rect.y bounds + Rect.height bounds then
    <["y" := int (Rect.y bounds + Rect.height bounds - num state "height")]> state
  else state.

Definition partOfWindowWithinBounds (state : gmap string value) (bounds : Rect.t)
  : number :=
  let visibleWidth :=
    Z.max 0 (Z.min (num state "x" + num state "width")
                   (Rect.x bounds + Rect.width bounds)
             - Z.max (num state "x") (Rect.x bounds)) in
  let visibleHeight :=
    Z.max 0 (Z.min (num state "y" + num state "height")
                   (Rect.y bounds + Rect.height bounds)
             - Z.max (num state "y") (Rect.y bounds)) in
  js_div (visibleWidth * visibleHeight) (num state "width" * num state "height").

(** The body of the [forEach] callback: the pair is
    [(bestBounds, bestVisibility)]. *)
Definition pickBest (state : gmap string value)
    (best : option Rect.t * number) (display : Rect.t) : option Rect.t * number :=
  let visibility := partOfWindowWithinBounds state display in
  if js_gt visibility (snd best) then (Some display, visibility) else best.

(** [displays] is what [screen.getAllDisplays()] returns, each display given
    by its [bounds]. *)
Definition ensureWindowVisibleOnSomeDisplay (cfg : config) (displays : list Rect.t)
    (state : gmap string value) : gmap string value :=
  let best := fold_left (pickBest state) displays (None, Fin (Qc_of_Z 0)) in
  match fst best with
  | Some bestBounds =>
      if js_lt (snd best) (Fin (Qc_of_Z 1)) then moveWithinBounds bestBounds state
      else state
  | None => resetStateToDefault cfg
  end.

(** ** Validation *)

(** Calls to the collaborators that the properties below observe. *)
Inductive call :=
  | GetAllDisplays
  | GetBounds (win : nat).

Definition isValid (state : option (gmap string value)) : bool :=
  match state with
  | None => false
  | Some st =>
      hasBounds state || truthy (st !! "isMaximized") || truthy (st !! "isFullScreen")
  end.

(** Returns the new [state] ([None] is [null]) and the collaborator calls
    made: [screen.getAllDisplays()] is called once by
    [ensureWindowVisibleOnSomeDisplay]. *)
Definition validateState (cfg : config) (displays : list Rect.t)
    (state : option (gmap string value)) : option (gmap string value) * list call :=
  if negb (isValid state) then (None, [])
  else
    match state with
    | Some st =>
        if hasBounds state
        then (Some (ensureWindowVisibleOnSomeDisplay cfg displays st), [GetAllDisplays])
        else (state, [])
    | None => (state, [])
    end.

(** ** The controller and its host *)

(** A live [BrowserWindow]; every method of a destroyed window throws. *)
Record window := Window {
  getBounds : Rect.t;
  isMaximized : bool;
  isMinimized : bool;
  isFullScreen : bool
}.

(** The three listeners the controller registers. *)
Inductive handler := stateChangeHandler | closeHandler | closedHandler.

Global Instance handler_eq_dec : EqDecision handler.
Proof. solve_decision. Defined.

(** The closure variables [state], [winRef] and [stateChangeTimer], followed
    by the host they act on: the windows that are not destroyed, by handle;
    the listeners per window and event name, in registration order; the
    pending timers as (id, due time), all of them running [updateState];
    the clock in milliseconds; the persisted record; the log of calls. *)
Record world := World {
  state : gmap string value;
  winRef : option nat;
  stateChangeTimer : option nat;
  windows : gmap nat window;
  listeners : gmap (nat * string) (list handler);
  timers : list (nat * nat);
  nextTimer : nat;
  now : nat;
  saved : option (gmap string value);
  log : list call
}.

Definition set_state (st : gmap string value) (w : world) : world :=
  World st (winRef w) (stateChangeTimer w) (windows w) (listeners w) (timers w)
        (nextTimer w) (now w) (saved w) (log w).
Definition set_winRef (r : option nat) (w : world) : world :=
  World (state w) r (stateChangeTimer w) (windows w) (listeners w) (timers w)
        (nextTimer w) (now w) (saved w) (log w).
Definition set_stateChangeTimer (t : option nat) (w : world) : world :=
  World (state w) (winRef w) t (windows w) (listeners w) (timers w)
        (nextTimer w) (now w) (saved w) (log w).
Definition set_windows (ws : gmap nat window) (w : world) : world :=
  World (state w) (winRef w) (stateChangeTimer w) ws (listeners w) (timers w)
        (nextTimer w) (now w) (saved w) (log w).
Definition set_listeners (ls : gmap (nat * string) (list handler)) (w : world) : world :=
  World (state w) (winRef w) (stateChangeTimer w) (windows w) ls (timers w)
        (nextTimer w) (now w) (saved w) (log w).
Definition set_timers (ts : list (nat * nat)) (w : world) : world :=
  World (state w) (winRef w) (stateChangeTimer w) (windows w) (listeners w) ts
        (nextTimer w) (now w) (saved w) (log w).
Definition set_nextTimer (n : nat) (w : world) : world :=
  World (state w) (winRef w) (stateChangeTimer w) (windows w) (listeners w) (timers w)
        n (now w) (saved w) (log w).
Definition set_now (t : nat) (w : world) : world :=
  World (state w) (winRef w) (stateChangeTimer w) (windows w) (listeners w) (timers w)
        (nextTimer w) t (saved w) (log w).
Definition set_saved (s : option (gmap string value)) (w : world) : world :=
  World (state w) (winRef w) (stateChangeTimer w) (windows w) (listeners w) (timers w)
        (nextTimer w) (now w) s (log w).
Definition add_log (c : call) (w : world) : world :=
  World (state w) (winRef w) (stateChangeTimer w) (windows w) (listeners w) (timers w)
        (nextTimer w) (now w) (saved w) (log w ++ [c]).

Definition eventHandlingDelay : nat := 100.

Definition isNormal (win : window) : bool :=
  negb (isMaximized win) && negb (isMinimized win) && negb (isFullScreen win).

(** [win] is the argument, [None] when the function is called without one
    (by the timer and by [closeHandler]).  A destroyed window makes
    [win.getBounds()] throw, and the [catch] leaves [state] as it was. *)
Definition updateState (win : option nat) (w : world) : world :=
  match (match win with Some h => Some h | None => winRef w end) with
  | None => w
  | Some h =>
      let w := add_log (GetBounds h) w in
      match windows w !! h with
      | None => w
      | Some win =>
          let winBounds := getBounds win in
          let st := state w in
          let st :=
            if isNormal win then
              <["height" := int (Rect.height winBounds)]>
                (<["width" := int (Rect.width winBounds)]>
                   (<["y" := int (Rect.y winBounds)]>
                      (<["x" := int (Rect.x winBounds)]> st)))
            else st in
          let st := <["isMaximized" := VBool (isMaximized win)]> st in
          let st := <["isFullScreen" := VBool (isFullScreen win)]> st in
          set_state st w
      end
  end.

(** [saved] is the record handed to the persistence collaborator
    ([config.store.set] or [jsonfile.writeFileSync]).  What the collaborator
    makes of it (the JSON text, a write that fails and is swallowed) is not
    modelled. *)
Definition saveState (win : option nat) (w : world) : world :=
  let w := match win with Some h => updateState (Some h) w | None => w end in
  set_saved (Some (state w)) w.

Definition clearTimeout (t : option nat) (w : world) : world :=
  match t with
  | None => w
  | Some id => set_timers (List.filter (fun p => negb (Nat.eqb (fst p) id)) (timers w)) w
  end.

(** [setTimeout(updateState, delay)]: returns the id of the new timer. *)
Definition setTimeout (delay : nat) (w : world) : nat * world :=
  let id := nextTimer w in
  (id, set_nextTimer (S id) (set_timers (timers w ++ [(id, (now w + delay)%nat)]) w)).

Definition stateChangeHandler_run (w : world) : world :=
  let w := clearTimeout (stateChangeTimer w) w in
  let '(id, w) := setTimeout eventHandlingDelay w in
  set_stateChangeTimer (Some id) w.

Definition listenersOf (w : world) (win : nat) (e : string) : list handler :=
  default [] (listeners w !! (win, e)).

(** [win.on(e, h)] appends the listener. *)
Definition on (win : nat) (e : string) (h : handler) (w : world) : world :=
  set_listeners (<[(win, e) := listenersOf w win e ++ [h]]> (listeners w)) w.

Fixpoint remove_first (h : handler) (l : list handler) : list handler :=
  match l with
  | [] => []
  | h' :: l' => if decide (h' = h) then l' else h' :: remove_first h l'
  end.

(** [win.removeListener(e, h)] removes the most recently added instance. *)
Definition removeListener (win : nat) (e : string) (h : handler) (w : world) : world :=
  set_listeners
    (<[(win, e) := rev (remove_first h (rev (listenersOf w win e)))]> (listeners w)) w.

Definition unmanage (w : world) : world :=
  match winRef w with
  | Some h =>
      let w := removeListener h "resize" stateChangeHandler w in
      let w := removeListener h "move" stateChangeHandler w in
      let w := clearTimeout (stateChangeTimer w) w in
      let w := removeListener h "close" closeHandler w in
      let w := removeListener h "closed" closedHandler w in
      set_winRef None w
  | None => w
  end.

Definition closeHandler_run (w : world) : world := updateState None w.

Definition closedHandler_run (w : world) : world := saveState None (unmanage w).

(** [win.maximize()] and [win.setFullScreen(true)]: [None] when the window is
    destroyed and the call throws. *)
Definition win_maximize (h : nat) (w : world) : option world :=
  match windows w !! h with
  | Some win =>
      Some (set_windows (<[h := Window (getBounds win) true (isMinimized win)
                                       (isFullScreen win)]> (windows w)) w)
  | None => None
  end.

Definition win_setFullScreen (h : nat) (w : world) : option world :=
  match windows w !! h with
  | Some win =>
      Some (set_windows (<[h := Window (getBounds win) (isMaximized win)
                                       (isMinimized win) true]> (windows w)) w)
  | None => None
  end.

(** [None] when [win.maximize()] or [win.setFullScreen(true)] throws, which
    happens before anything has been changed. *)
Definition manage (cfg : config) (win : nat) (w : world) : option world :=
  w ← (if maximize cfg && truthy (state w !! "isMaximized")
       then win_maximize win w else Some w);
  w ← (if fullScreen cfg && truthy (state w !! "isFullScreen")
       then win_setFullScreen win w else Some w);
  let w := on win "resize" stateChangeHandler w in
  let w := on win "move" stateChangeHandler w in
  let w := on win "close" closeHandler w in
  let w := on win "closed" closedHandler w in
  Some (set_winRef (Some win) w).

(** The body of [module.exports]: [loaded] is what the [try] block around the
    read leaves in [state] ([None] when nothing usable was read).  A loaded
    record is a map of values as JSON has them; an own property holding
    [undefined], which only a store can return, is not represented. *)
Definition create (cfg : config) (displays : list Rect.t)
    (wins : gmap nat window) (loaded : option (gmap string value)) : world :=
  let '(st, calls) := validateState cfg displays loaded in
  let fallback : gmap string value :=
    {[ "width" := js_or (defaultWidth cfg) (int 800);
       "height" := js_or (defaultHeight cfg) (int 600) ]} in
  let st := match st with Some st => st ∪ fallback | None => fallback end in
  World st None None wins ∅ [] 0%nat 0%nat loaded calls.

(** ** The event loop *)

Definition run_handler (h : handler) (w : world) : world :=
  match h with
  | stateChangeHandler => stateChangeHandler_run w
  | closeHandler => closeHandler_run w
  | closedHandler => closedHandler_run w
  end.

(** [emit] calls the listeners registered when the event is emitted. *)
Definition emit (win : nat) (e : string) (w : world) : world :=
  fold_left (fun w h => run_handler h w) (listenersOf w win e) w.

(** [dt] milliseconds pass: the timers that come due run, in order. *)
Definition elapse (dt : nat) (w : world) : world :=
  let t := (now w + dt)%nat in
  let due := List.filter (fun p => Nat.leb (snd p) t) (timers w) in
  let w := set_timers (List.filter (fun p => negb (Nat.leb (snd p) t)) (timers w)) w in
  set_now t (fold_left (fun w _ => updateState None w) due w).

(** What the host does to a window. *)
Inductive input :=
  | Resize (win : nat) (b : Rect.t)
  | Move (win : nat) (b : Rect.t)
  | Close (win : nat)
  | Closed (win : nat).

Definition with_bounds (b : Rect.t) (win : window) : window :=
  Window b (isMaximized win) (isMinimized win) (isFullScreen win).

Definition deliver (i : input) (w : world) : world :=
  match i with
  | Resize h b => emit h "resize" (set_windows (alter (with_bounds b) h (windows w)) w)
  | Move h b => emit h "move" (set_windows (alter (with_bounds b) h (windows w)) w)
  | Close h => emit h "close" w
  | Closed h => emit h "closed" (set_windows (delete h (windows w)) w)
  end.

(** An input arrives [dt] milliseconds after the previous one. *)
Definition step (w : world) (ev : nat * input) : world :=
  deliver (snd ev) (elapse (fst ev) w).

Definition run (evs : list (nat * input)) (w : world) : world :=
  fold_left step evs w.

(** ** Vocabulary of the properties *)

Definition rect_obj (x y w h : Z) : gmap string value :=
  {[ "x" := int x; "y" := int y; "width" := int w; "height" := int h ]}.

(** The four bounds properties hold integers. *)
Definition integerBounds (st : gmap string value) : bool :=
  isInteger (st !! "x") && isInteger (st !! "y") &&
  isInteger (st !! "width") && isInteger (st !! "height").

(** The rectangle of the record lies inside the bounds. *)
Definition inside (st : gmap string value) (b : Rect.t) : Prop :=
  Rect.x b <= num st "x" /\
  num st "x" + num st "width" <= Rect.x b + Rect.width b /\
  Rect.y b <= num st "y" /\
  num st "y" + num st "height" <= Rect.y b + Rect.height b.

(** The listeners [manage] registers for an event. *)
Definition subscribed (e : string) : list handler :=
  if decide (e = "resize") then [stateChangeHandler]
  else if decide (e = "move") then [stateChangeHandler]
  else if decide (e = "close") then [closeHandler]
  else if decide (e = "closed") then [closedHandler]
  else [].

(** The controller tracks window [h], with the listeners of one [manage]
    on its resize and move events and no timer pending. *)
Definition tracking (h : nat) (w : world) : Prop :=
  winRef w = Some h /\
  listenersOf w h "resize" = [stateChangeHandler] /\
  listenersOf w h "move" = [stateChangeHandler] /\
  timers w = [].

(** The controller between two events of a burst: one timer is pending, set
    by the last event, and [stateChangeTimer] names it. *)
Definition pending (h : nat) (w : world) : Prop :=
  winRef w = Some h /\
  listenersOf w h "resize" = [stateChangeHandler] /\
  listenersOf w h "move" = [stateChangeHandler] /\
  exists id, timers w = [(id, (now w + eventHandlingDelay)%nat)] /\
             stateChangeTimer w = Some id.

(** The new bounds, when the input is a resize or a move of window [h]. *)
Definition change_of (h : nat) (i : input) : option Rect.t :=
  match i with
  | Resize h' b | Move h' b => if decide (h' = h) then Some b else None
  | Close _ | Closed _ => None
  end.

(** The bounds the last resize or move of a sequence leaves, [b] if there is
    none. *)
Definition last_bounds (b : Rect.t) (evs : list (nat * input)) : Rect.t :=
  fold_left (fun b ev => match snd ev with
                         | Resize _ b' | Move _ b' => b'
                         | Close _ | Closed _ => b
                         end) evs b.

Definition zero : number := Fin (Qc_of_Z 0).
Definition one : number := Fin (Qc_of_Z 1).

(** Numerator and denominator of [partOfWindowWithinBounds]. *)
Definition visibleArea (st : gmap string value) (b : Rect.t) : Z :=
  Z.max 0 (Z.min (num st "x" + num st "width") (Rect.x b + Rect.width b)
           - Z.max (num st "x") (Rect.x b))
  * Z.max 0 (Z.min (num st "y" + num st "height") (Rect.y b + Rect.height b)
             - Z.max (num st "y") (Rect.y b)).

Definition area (st : gmap string value) : Z := num st "width" * num st "height".

(** The range of records on which the integers of this file and the doubles
    of JavaScript compute the same: a position below 2^40 in magnitude and a
    width and a height below 2^26. *)
Definition screenSized (st : gmap string value) : Prop :=
  - 2 ^ 40 < num st "x" < 2 ^ 40 /\ - 2 ^ 40 < num st "y" < 2 ^ 40 /\
  num st "width" < 2 ^ 26 /\ num st "height" < 2 ^ 26.

(** The bounds Electron reports for a display: 32-bit integers, with a
    width and a height that are not negative. *)
Definition displaySized (b : Rect.t) : Prop :=
  - 2 ^ 31 <= Rect.x b < 2 ^ 31 /\ - 2 ^ 31 <= Rect.y b < 2 ^ 31 /\
  0 <= Rect.width b < 2 ^ 31 /\ 0 <= Rect.height b < 2 ^ 31.

(** The rectangle of the record and the bounds share no area. *)
Definition disjoint (st : gmap string value) (b : Rect.t) : Prop :=
  num st "x" + num st "width" <= Rect.x b \/
  Rect.x b + Rect.width b <= num st "x" \/
  num st "y" + num st "height" <= Rect.y b \/
  Rect.y b + Rect.height b <= num st "y".

(** The controller tracks window [h], whose listeners are those of one
    [manage]. *)
Definition managed (h : nat) (w : world) : Prop :=
  winRef w = Some h /\ forall e, listenersOf w h e = subscribed e.

(** Whether [manage] has a mode to restore on the window. *)
Definition restoresMaximize (cfg : config) (w : world) : bool :=
  maximize cfg && truthy (state w !! "isMaximized").

Definition restoresFullScreen (cfg : config) (w : world) : bool :=
  fullScreen cfg && truthy (state w !! "isFullScreen").

(** The window as [manage] leaves it. *)
Definition restored (cfg : config) (w : world) (win : window) : window :=
  Window (getBounds win) (isMaximized win || restoresMaximize cfg w) (isMinimized win)
         (isFullScreen win || restoresFullScreen cfg w).

(** * Properties *)

(** Equality of two closed numbers: rationals are equal when they are equal
    as fractions. *)
Ltac number_eq :=
  vm_compute; first [reflexivity | f_equal; apply Qc_is_canon; reflexivity].

Example overlap_example :
  partOfWindowWithinBounds (rect_obj 900 0 800 600) (Rect.Make 0 0 1000 800)
  = Fin (Qc_of_Z 1 / Qc_of_Z 8)%Qc.
Proof. number_eq. Qed.

Example clamp_example :
  ensureWindowVisibleOnSomeDisplay (Config None None true true)
    [Rect.Make 0 0 1000 800] (rect_obj 900 0 800 600)
  = rect_obj 200 0 800 600.
Proof. vm_compute. reflexivity. Qed.

(** ** Numbers and property reads *)

Section Numbers.

Lemma to_Z_int z : to_Z (Some (int z)) = z.
Proof. reflexivity. Qed.

Lemma isInteger_int z : isInteger (Some (int z)) = true.
Proof. reflexivity. Qed.

Lemma isInteger_inv v : isInteger v = true -> v = Some (int (to_Z v)).
Proof.
  destruct v as [[| |[q| | |]| |]|]; unfold isInteger, to_Z; try discriminate.
  intros H. rewrite H. unfold int. do 3 f_equal. apply Qc_is_canon.
  destruct q as [[n d] Hc].
  apply Pos.eqb_eq in H. simpl in H. subst d. reflexivity.
Qed.

Lemma num_insert_eq (st : gmap string value) k z : num (<[k := int z]> st) k = z.
Proof. unfold num. by rewrite lookup_insert_eq. Qed.

Lemma num_insert_ne (st : gmap string value) k k' v :
  k <> k' -> num (<[k := v]> st) k' = num st k'.
Proof. intros. unfold num. by rewrite lookup_insert_ne. Qed.

Lemma Qc_of_Z_pos c : 0 < c -> (Qc_of_Z 0 < Qc_of_Z c)%Qc.
Proof. apply Z2Qc_inj_lt. Qed.

Lemma Qc_div_lt a b c :
  0 < c -> (Qc_of_Z a / Qc_of_Z c < Qc_of_Z b / Qc_of_Z c)%Qc <-> a < b.
Proof.
  intros Hc. unfold Qcdiv.
  rewrite <- Qcmult_lt_mono_pos_r, <- Z2Qc_inj_lt; [done|].
  apply Qcinv_pos. rewrite <- Z2Qc_inj_0. by apply Qc_of_Z_pos.
Qed.

Lemma Qc_div_same c : c <> 0 -> (Qc_of_Z c / Qc_of_Z c)%Qc = Qc_of_Z 1.
Proof.
  intros Hc. unfold Qcdiv. rewrite Qcmult_inv_r, Z2Qc_inj_1; [done|].
  rewrite <- Z2Qc_inj_0. by intros ?%Z2Qc_inj.
Qed.

Lemma js_div_pos v A : 0 < A -> js_div v A = Fin (Qc_of_Z v / Qc_of_Z A)%Qc.
Proof. intros. unfold js_div. destruct (Z.eqb_spec A 0); [lia|done]. Qed.

Lemma js_div_same A : 0 < A -> js_div A A = one.
Proof. intros. rewrite js_div_pos by done. unfold one. rewrite Qc_div_same; [done|lia]. Qed.

Lemma js_div_zero A : 0 < A -> js_div 0 A = zero.
Proof.
  intros. rewrite js_div_pos by done. unfold zero, Qcdiv.
  by rewrite Z2Qc_inj_0, Qcmult_0_l.
Qed.

Lemma js_lt_div a b A : 0 < A -> js_lt (js_div a A) (js_div b A) = (a <? b).
Proof.
  intros. rewrite !js_div_pos by done. simpl.
  destruct (Z.ltb_spec a b) as [Hab|Hab].
  - apply bool_decide_eq_true. by apply Qc_div_lt.
  - apply bool_decide_eq_false. rewrite Qc_div_lt by done. lia.
Qed.

Lemma js_div_inj a b A : 0 < A -> js_div a A = js_div b A -> a = b.
Proof.
  intros HA Heq.
  assert ((a <? b) = false) as Hab.
  { rewrite <- (js_lt_div a b A HA), <- Heq, js_lt_div by done. apply Z.ltb_irrefl. }
  assert ((b <? a) = false) as Hba.
  { rewrite <- (js_lt_div b a A HA), Heq, js_lt_div by done. apply Z.ltb_irrefl. }
  lia.
Qed.

End Numbers.

(** ** Geometry *)

Ltac num_simpl :=
  repeat (rewrite num_insert_eq || rewrite num_insert_ne by done).

Ltac num_simpl_all :=
  repeat (rewrite num_insert_eq in * || rewrite num_insert_ne in * by done).

(** Unfolds [moveWithinBounds] and splits on its four tests. *)
Ltac move_cases :=
  unfold moveWithinBounds; cbv zeta;
  repeat (num_simpl; try case_match); num_simpl_all; congruence.

Section Geometry.
Implicit Types (st : gmap string value) (b d : Rect.t).

Lemma partOfWindowWithinBounds_div st b :
  partOfWindowWithinBounds st b = js_div (visibleArea st b) (area st).
Proof. reflexivity. Qed.

Lemma hasBounds_inv st :
  hasBounds (Some st) = true ->
  integerBounds st = true /\ 0 < num st "width" /\ 0 < num st "height".
Proof.
  unfold hasBounds, integerBounds. rewrite !andb_true_iff, !Z.ltb_lt.
  intros [[[[[-> ->] ->] ?] ->] ?]. done.
Qed.

Lemma hasBounds_area st : hasBounds (Some st) = true -> 0 < area st.
Proof. intros (_ & ? & ?)%hasBounds_inv. unfold area. lia. Qed.

Lemma visibleArea_nonneg st b : 0 <= visibleArea st b.
Proof. unfold visibleArea. nia. Qed.

Lemma visibleArea_le st b :
  0 <= num st "width" -> 0 <= num st "height" -> visibleArea st b <= area st.
Proof. unfold visibleArea, area. intros. apply Z.mul_le_mono_nonneg; lia. Qed.

Lemma visibleArea_inside st b :
  inside st b -> 0 <= num st "width" -> 0 <= num st "height" ->
  visibleArea st b = area st.
Proof.
  unfold inside, visibleArea, area. intros (? & ? & ? & ?) ? ?. f_equal; lia.
Qed.

Lemma visibleArea_pos_bounds st b :
  0 < visibleArea st b -> 0 < Rect.width b /\ 0 < Rect.height b.
Proof. unfold visibleArea. intros. split; nia. Qed.

(** What [moveWithinBounds] leaves in the four properties. *)
Lemma moveWithinBounds_width b st :
  num (moveWithinBounds b st) "width" = Z.min (num st "width") (Rect.width b).
Proof.
  move_cases.
Qed.

Lemma moveWithinBounds_height b st :
  num (moveWithinBounds b st) "height" = Z.min (num st "height") (Rect.height b).
Proof.
  move_cases.
Qed.

Lemma moveWithinBounds_x b st :
  num (moveWithinBounds b st) "x" =
    if num st "x" <? Rect.x b then Rect.x b
    else if num st "x" + Z.min (num st "width") (Rect.width b) >? Rect.x b + Rect.width b
         then Rect.x b + Rect.width b - Z.min (num st "width") (Rect.width b)
         else num st "x".
Proof.
  move_cases.
Qed.

Lemma moveWithinBounds_y b st :
  num (moveWithinBounds b st) "y" =
    if num st "y" <? Rect.y b then Rect.y b
    else if num st "y" + Z.min (num st "height") (Rect.height b) >? Rect.y b + Rect.height b
         then Rect.y b + Rect.height b - Z.min (num st "height") (Rect.height b)
         else num st "y".
Proof.
  move_cases.
Qed.

Lemma moveWithinBounds_inside b st : inside (moveWithinBounds b st) b.
Proof.
  unfold inside.
  rewrite moveWithinBounds_x, moveWithinBounds_y,
    moveWithinBounds_width, moveWithinBounds_height.
  repeat case_match; lia.
Qed.

End Geometry.

(** ** The range on which doubles are exact *)

Ltac in_range := vm_compute; repeat split; try reflexivity; try discriminate.

Section Range.
Implicit Types (st : gmap string value) (b : Rect.t).

(** Every number [partOfWindowWithinBounds] and [moveWithinBounds] compute
    from a screen-sized record and the bounds of a display is an integer
    below 2^53 in magnitude, and the two areas divided are below 2^52. *)
Lemma screenSized_exact st b :
  screenSized st -> 0 < num st "width" -> 0 < num st "height" -> displaySized b ->
  Z.abs (num st "x" + num st "width") < 2 ^ 53 /\
  Z.abs (num st "y" + num st "height") < 2 ^ 53 /\
  Z.abs (Rect.x b + Rect.width b) < 2 ^ 53 /\
  Z.abs (Rect.y b + Rect.height b) < 2 ^ 53 /\
  Z.abs (Z.min (num st "x" + num st "width") (Rect.x b + Rect.width b)
         - Z.max (num st "x") (Rect.x b)) < 2 ^ 53 /\
  Z.abs (Z.min (num st "y" + num st "height") (Rect.y b + Rect.height b)
         - Z.max (num st "y") (Rect.y b)) < 2 ^ 53 /\
  Z.abs (Rect.x b + Rect.width b - Z.min (num st "width") (Rect.width b)) < 2 ^ 53 /\
  Z.abs (Rect.y b + Rect.height b - Z.min (num st "height") (Rect.height b)) < 2 ^ 53 /\
  0 <= visibleArea st b <= area st /\ area st < 2 ^ 52.
Proof.
  unfold screenSized, displaySized.
  intros (Hx & Hy & Hw & Hh) Hpw Hph (Hbx & Hby & Hbw & Hbh).
  assert (2 ^ 26 = 67108864) by reflexivity.
  assert (2 ^ 31 = 2147483648) by reflexivity.
  assert (2 ^ 40 = 1099511627776) by reflexivity.
  assert (2 ^ 52 = 4503599627370496) by reflexivity.
  assert (2 ^ 53 = 9007199254740992) by reflexivity.
  repeat split; try lia.
  - apply visibleArea_nonneg.
  - apply visibleArea_le; lia.
  - unfold area. nia.
Qed.

(** A screen-sized record stays screen-sized when it is moved into the
    bounds of a display. *)
Lemma moveWithinBounds_screenSized b st :
  screenSized st -> displaySized b -> screenSized (moveWithinBounds b st).
Proof.
  unfold screenSized, displaySized.
  intros (Hx & Hy & Hw & Hh) (Hbx & Hby & Hbw & Hbh).
  rewrite moveWithinBounds_x, moveWithinBounds_y,
    moveWithinBounds_width, moveWithinBounds_height.
  assert (2 ^ 26 = 67108864) by reflexivity.
  assert (2 ^ 31 = 2147483648) by reflexivity.
  assert (2 ^ 40 = 1099511627776) by reflexivity.
  repeat case_match; lia.
Qed.

End Range.

(** ** Choosing the best display *)

Section Reconcile.
Variable cfg : config.
Variable st : gmap string value.
Hypothesis Hwidth : 0 < num st "width".
Hypothesis Hheight : 0 < num st "height".

Let Harea : 0 < area st.
Proof. unfold area. lia. Qed.

Lemma pickBest_div best v d :
  snd best = js_div v (area st) ->
  pickBest st best d =
    if v <? visibleArea st d
    then (Some d, js_div (visibleArea st d) (area st)) else best.
Proof.
  intros Hbest. unfold pickBest, js_gt.
  by rewrite partOfWindowWithinBounds_div, Hbest, js_lt_div.
Qed.

(** The loop keeps the largest visible area seen so far, and the first
    display that reached it. *)
Lemma best_fold displays : forall best v,
  snd best = js_div v (area st) ->
  let r := fold_left (pickBest st) displays best in
  exists v', snd r = js_div v' (area st) /\ v <= v' /\
    (forall d, d ∈ displays -> visibleArea st d <= v') /\
    ((fst r = fst best /\ v' = v) \/
     (exists d, d ∈ displays /\ fst r = Some d /\ visibleArea st d = v' /\ v < v')).
Proof.
  induction displays as [|d ds IH]; intros best v Hbest; simpl.
  - exists v. repeat split; [done|lia|by intros ? ?%elem_of_nil|by left].
  - rewrite (pickBest_div best v d Hbest).
    destruct (Z.ltb_spec v (visibleArea st d)) as [Hlt|Hge].
    + destruct (IH (Some d, js_div (visibleArea st d) (area st)) (visibleArea st d))
        as (v' & Hr & Hle & Hall & Hcase); [done|].
      exists v'. split; [done|]. split; [lia|]. split.
      * intros d' [->|Hin]%elem_of_cons; [lia|by apply Hall].
      * right. destruct Hcase as [[Hfst ->]|(d' & Hin & Hfst & Hv & Hlt')].
        -- exists d. repeat split; [by left|done|lia].
        -- exists d'. repeat split; [by right|done|done|lia].
    + destruct (IH best v Hbest) as (v' & Hr & Hle & Hall & Hcase).
      exists v'. split; [done|]. split; [lia|]. split.
      * intros d' [->|Hin]%elem_of_cons; [lia|by apply Hall].
      * destruct Hcase as [?|(d' & Hin & Hfst & Hv & Hlt')]; [by left|].
        right. exists d'. repeat split; [by right|done|done|lia].
Qed.

Lemma best_spec displays :
  let r := fold_left (pickBest st) displays (None, Fin (Qc_of_Z 0)) in
  exists v, snd r = js_div v (area st) /\ 0 <= v <= area st /\
    (forall d, d ∈ displays -> visibleArea st d <= v) /\
    ((fst r = None /\ v = 0) \/
     (exists d, d ∈ displays /\ fst r = Some d /\ visibleArea st d = v /\ 0 < v)).
Proof.
  destruct (best_fold displays (None, Fin (Qc_of_Z 0)) 0)
    as (v & Hr & Hle & Hall & Hcase).
  { simpl. symmetry. by apply js_div_zero. }
  exists v. split; [done|]. split; [|split; [done|]].
  - destruct Hcase as [[_ ->]|(d & _ & _ & <- & _)]; [lia|].
    split; [apply visibleArea_nonneg|apply visibleArea_le; lia].
  - destruct Hcase as [[? ?]|?]; [by left|by right].
Qed.

(** No display shows any part of the window: the record is reset. *)
Lemma ensure_reset displays :
  (forall d, d ∈ displays -> visibleArea st d = 0) ->
  ensureWindowVisibleOnSomeDisplay cfg displays st = resetStateToDefault cfg.
Proof.
  intros Hzero. unfold ensureWindowVisibleOnSomeDisplay.
  destruct (best_spec displays) as (v & Hr & Hv & Hall & [[-> _]|(d & Hin & _ & Hd & Hpos)]);
    [done|].
  rewrite (Hzero d Hin) in Hd. lia.
Qed.

(** Some display shows a part of the window: the record is kept or moved
    into a display that shows a part of it. *)
Lemma ensure_visible displays d :
  d ∈ displays -> 0 < visibleArea st d ->
  exists d', d' ∈ displays /\ 0 < visibleArea st d' /\
    (forall d0, d0 ∈ displays -> visibleArea st d0 <= visibleArea st d') /\
    ensureWindowVisibleOnSomeDisplay cfg displays st =
      if visibleArea st d' <? area st then moveWithinBounds d' st else st.
Proof.
  intros Hin Hpos. unfold ensureWindowVisibleOnSomeDisplay.
  destruct (best_spec displays)
    as (v & Hr & Hv & Hall & [[_ ->]|(d' & Hin' & Hfst & Hd & Hpos')]).
  { specialize (Hall d Hin). lia. }
  exists d'. subst v. split; [done|]. split; [done|]. split; [done|].
  rewrite Hfst, Hr. change (Fin (Qc_of_Z 1)) with one.
  by rewrite <- (js_div_same (area st)), js_lt_div.
Qed.

(** A display holds the whole window: the record is kept. *)
Lemma ensure_contained displays d :
  d ∈ displays -> inside st d ->
  ensureWindowVisibleOnSomeDisplay cfg displays st = st.
Proof.
  intros Hin Hinside.
  assert (Hd : visibleArea st d = area st) by (apply visibleArea_inside; [done|lia|lia]).
  destruct (ensure_visible displays d Hin) as (d' & Hin' & Hpos & Hmax & ->); [lia|].
  specialize (Hmax d Hin).
  assert (visibleArea st d' <= area st) by (apply visibleArea_le; lia).
  destruct (Z.ltb_spec (visibleArea st d') (area st)); [lia|done].
Qed.

End Reconcile.

(** ** Overlap ratio *)

(** C1, as the code has it: for a record whose four bounds are integers and
    whose width or height is 0, [partOfWindowWithinBounds] divides 0 by 0
    and returns [NaN], whatever the bounds.  Such a record does not pass
    [hasBounds], the test behind which the function is called, and the loop
    of [ensureWindowVisibleOnSomeDisplay] never prefers a display on a [NaN]
    ratio. *)
Theorem zero_area_overlap_is_NaN (st : gmap string value) (b : Rect.t) :
  integerBounds st = true ->
  num st "width" = 0 \/ num st "height" = 0 ->
  partOfWindowWithinBounds st b = NaN /\
  hasBounds (Some st) = false /\
  forall best, pickBest st best b = best.
Proof.
  intros _ Hzero.
  assert (Hnan : partOfWindowWithinBounds st b = NaN).
  { rewrite partOfWindowWithinBounds_div. unfold js_div.
    assert (area st = 0) as -> by (unfold area; lia).
    assert (visibleArea st b = 0) as -> by (unfold visibleArea; nia).
    done. }
  split; [done|]. split.
  - destruct (hasBounds (Some st)) eqn:Hb; [|done].
    apply hasBounds_inv in Hb. lia.
  - intros best. unfold pickBest, js_gt. rewrite Hnan.
    by destruct (snd best).
Qed.

Lemma zero_area_overlap_is_NaN_witness :
  partOfWindowWithinBounds (rect_obj 10 20 0 600) (Rect.Make 0 0 1000 800) = NaN /\
  hasBounds (Some (rect_obj 10 20 0 600)) = false /\
  forall best, pickBest (rect_obj 10 20 0 600) best (Rect.Make 0 0 1000 800) = best.
Proof.
  apply (zero_area_overlap_is_NaN (rect_obj 10 20 0 600) (Rect.Make 0 0 1000 800)).
  - reflexivity.
  - left. reflexivity.
Defined.

(** C1 as stated fails: a window of width 0 has zero area, and its ratio with
    a display is not 0. *)
Lemma zero_area_overlap_not_zero :
  let st := rect_obj 10 20 0 600 in
  integerBounds st = true /\
  (num st "width" = 0 \/ num st "height" = 0) /\
  partOfWindowWithinBounds st (Rect.Make 0 0 1000 800) <> zero.
Proof. split; [reflexivity|]. split; [by left|]. vm_compute. discriminate. Qed.

(** X1: for a boundable record, [partOfWindowWithinBounds] returns a finite
    number between 0 and 1, whatever the bounds. *)
Lemma overlap_ratio_range (st : gmap string value) (b : Rect.t) :
  hasBounds (Some st) = true ->
  exists q, partOfWindowWithinBounds st b = Fin q /\ (Qc_of_Z 0 <= q <= Qc_of_Z 1)%Qc.
Proof.
  intros (_ & Hw & Hh)%hasBounds_inv.
  assert (HA : 0 < area st) by (unfold area; lia).
  exists (Qc_of_Z (visibleArea st b) / Qc_of_Z (area st))%Qc.
  rewrite partOfWindowWithinBounds_div, js_div_pos by done. split; [done|].
  assert (Hinv : (0 < / Qc_of_Z (area st))%Qc).
  { apply Qcinv_pos. rewrite <- Z2Qc_inj_0. by apply Qc_of_Z_pos. }
  split.
  - rewrite Z2Qc_inj_0. unfold Qcdiv. apply Qcmult_nonneg_nonneg.
    + rewrite <- Z2Qc_inj_0.
      apply (proj1 (Z2Qc_inj_le _ _)), visibleArea_nonneg.
    + by apply Qclt_le_weak.
  - rewrite <- (Qc_div_same (area st)) by lia. unfold Qcdiv.
    apply Qcmult_le_mono_pos_r; [done|].
    apply (proj1 (Z2Qc_inj_le _ _)), visibleArea_le; lia.
Qed.

(** ** Clamping *)

(** C5: for a record of integer bounds with non-negative width and height and
    bounds of positive width and height, [moveWithinBounds] leaves a width
    and a height no larger than those of the bounds, and a left, right, top
    and bottom edge that all lie within the bounds; the bounds it stores are
    integers again.  And the record [{x: 900, y: 0, width: 800, height: 600}]
    moved into [{x: 0, y: 0, width: 1000, height: 800}] becomes
    [{x: 200, y: 0, width: 800, height: 600}]. *)
Theorem moveWithinBounds_within :
  (forall (st : gmap string value) (b : Rect.t),
     integerBounds st = true ->
     0 <= num st "width" -> 0 <= num st "height" ->
     0 < Rect.width b -> 0 < Rect.height b ->
     let st' := moveWithinBounds b st in
     integerBounds st' = true /\
     num st' "width" <= Rect.width b /\
     num st' "height" <= Rect.height b /\
     Rect.x b <= num st' "x" <= Rect.x b + Rect.width b /\
     Rect.x b <= num st' "x" + num st' "width" <= Rect.x b + Rect.width b /\
     Rect.y b <= num st' "y" <= Rect.y b + Rect.height b /\
     Rect.y b <= num st' "y" + num st' "height" <= Rect.y b + Rect.height b) /\
  moveWithinBounds (Rect.Make 0 0 1000 800) (rect_obj 900 0 800 600)
  = rect_obj 200 0 800 600.
Proof.
  split; [|vm_compute; reflexivity].
  intros st b Hint Hw Hh Hbw Hbh st'. split.
  - unfold integerBounds in *.
    apply andb_true_iff in Hint as [[[Hx Hy]%andb_true_iff Hwi]%andb_true_iff Hhi].
    subst st'. unfold moveWithinBounds. cbv zeta.
    repeat case_match;
      repeat (rewrite lookup_insert_eq || rewrite lookup_insert_ne by done);
      rewrite ?isInteger_int, ?Hx, ?Hy; done.
  - pose proof (moveWithinBounds_inside b st) as (? & ? & ? & ?).
    fold st' in H, H0, H1, H2.
    assert (num st' "width" = Z.min (num st "width") (Rect.width b))
      by apply moveWithinBounds_width.
    assert (num st' "height" = Z.min (num st "height") (Rect.height b))
      by apply moveWithinBounds_height.
    lia.
Qed.

Lemma moveWithinBounds_within_witness :
  let st' := moveWithinBounds (Rect.Make 0 0 1000 800) (rect_obj 900 (-50) 800 900) in
  integerBounds st' = true /\
  num st' "width" <= 1000 /\
  num st' "height" <= 800 /\
  0 <= num st' "x" <= 0 + 1000 /\
  0 <= num st' "x" + num st' "width" <= 0 + 1000 /\
  0 <= num st' "y" <= 0 + 800 /\
  0 <= num st' "y" + num st' "height" <= 0 + 800.
Proof.
  apply (proj1 moveWithinBounds_within (rect_obj 900 (-50) 800 900)
           (Rect.Make 0 0 1000 800)).
  - reflexivity.
  - by vm_compute.
  - by vm_compute.
  - simpl. lia.
  - simpl. lia.
Defined.

(** ** Reconciliation *)

(** The reset of a record that no display shows, shared by the properties
    below. *)
Lemma reset_when_invisible (cfg : config) (displays : list Rect.t)
    (st : gmap string value) :
  hasBounds (Some st) = true ->
  (forall d, d ∈ displays -> partOfWindowWithinBounds st d = zero) ->
  ensureWindowVisibleOnSomeDisplay cfg displays st = resetStateToDefault cfg.
Proof.
  intros (_ & Hw & Hh)%hasBounds_inv Hzero.
  assert (HA : 0 < area st) by (unfold area; lia).
  apply ensure_reset; [done|done|]. intros d Hin.
  specialize (Hzero d Hin).
  rewrite partOfWindowWithinBounds_div, <- (js_div_zero (area st)) in Hzero by done.
  by apply js_div_inj in Hzero.
Qed.

(** C3: a boundable record whose rectangle lies inside the bounds of one of
    the displays has ratio 1 with that display, is returned unchanged by
    [ensureWindowVisibleOnSomeDisplay], and is returned unchanged again by a
    second run over the same displays. *)
Theorem contained_is_fixed_point (cfg : config) (displays : list Rect.t)
    (st : gmap string value) (d : Rect.t) :
  hasBounds (Some st) = true ->
  d ∈ displays ->
  inside st d ->
  partOfWindowWithinBounds st d = one /\
  ensureWindowVisibleOnSomeDisplay cfg displays st = st /\
  ensureWindowVisibleOnSomeDisplay cfg displays
    (ensureWindowVisibleOnSomeDisplay cfg displays st) = st.
Proof.
  intros (_ & Hw & Hh)%hasBounds_inv Hin Hinside.
  assert (Hfix : ensureWindowVisibleOnSomeDisplay cfg displays st = st)
    by by apply (ensure_contained cfg st Hw Hh displays d).
  split; [|by rewrite !Hfix].
  rewrite partOfWindowWithinBounds_div, visibleArea_inside by (done || lia).
  apply js_div_same. unfold area. lia.
Qed.

Lemma contained_is_fixed_point_witness :
  let cfg := Config None None true true in
  let displays := [Rect.Make (-1920) 0 1920 1080; Rect.Make 0 0 1000 800] in
  let st := <["isMaximized" := VBool true]> (rect_obj 100 50 800 600) in
  partOfWindowWithinBounds st (Rect.Make 0 0 1000 800) = one /\
  ensureWindowVisibleOnSomeDisplay cfg displays st = st /\
  ensureWindowVisibleOnSomeDisplay cfg displays
    (ensureWindowVisibleOnSomeDisplay cfg displays st) = st.
Proof.
  apply contained_is_fixed_point.
  - reflexivity.
  - apply elem_of_cons. right. apply elem_of_cons. by left.
  - unfold inside. by vm_compute.
Defined.

(** C4: a boundable record with ratio 0 on every attached display is replaced
    by [{width: defaultWidth || 800, height: defaultHeight || 600, x: 0,
    y: 0}], which has neither [isMaximized] nor [isFullScreen]. *)
Theorem invisible_is_reset (cfg : config) (displays : list Rect.t)
    (st : gmap string value) :
  hasBounds (Some st) = true ->
  (forall d, d ∈ displays -> partOfWindowWithinBounds st d = zero) ->
  let st' := ensureWindowVisibleOnSomeDisplay cfg displays st in
  st' = {[ "width" := js_or (defaultWidth cfg) (int 800);
           "height" := js_or (defaultHeight cfg) (int 600);
           "x" := int 0;
           "y" := int 0 ]} /\
  st' !! "isMaximized" = None /\
  st' !! "isFullScreen" = None.
Proof.
  intros Hb Hzero st'.
  assert (Hreset : st' = resetStateToDefault cfg)
    by by apply reset_when_invisible.
  rewrite Hreset. done.
Qed.

(** The scenario of C4: [{x: 2000, y: 0, width: 800, height: 600}] with the
    single display [{x: 0, y: 0, width: 1000, height: 800}], no default size
    configured, and a maximized flag that is dropped. *)
Lemma invisible_is_reset_witness :
  let cfg := Config None None true true in
  let st := <["isMaximized" := VBool true]> (rect_obj 2000 0 800 600) in
  let st' := ensureWindowVisibleOnSomeDisplay cfg [Rect.Make 0 0 1000 800] st in
  st' = {[ "width" := int 800; "height" := int 600; "x" := int 0; "y" := int 0 ]} /\
  st' !! "isMaximized" = None /\
  st' !! "isFullScreen" = None.
Proof.
  apply (invisible_is_reset (Config None None true true) [Rect.Make 0 0 1000 800]
           (<["isMaximized" := VBool true]> (rect_obj 2000 0 800 600))).
  - reflexivity.
  - intros d ->%list_elem_of_singleton. number_eq.
Defined.

(** C10 as stated fails: off every display, the record is reset to 800x600
    at the origin, and a second run clamps that record into the 640x480
    display. *)
Lemma reconcile_twice_differs :
  let cfg := Config None None true true in
  let displays := [Rect.Make 0 0 640 480] in
  let st := rect_obj 2000 2000 800 600 in
  hasBounds (Some st) = true /\
  Forall (fun d => 0 < Rect.width d /\ 0 < Rect.height d) displays /\
  ensureWindowVisibleOnSomeDisplay cfg displays st = rect_obj 0 0 800 600 /\
  ensureWindowVisibleOnSomeDisplay cfg displays
    (ensureWindowVisibleOnSomeDisplay cfg displays st) = rect_obj 0 0 640 480 /\
  ensureWindowVisibleOnSomeDisplay cfg displays
    (ensureWindowVisibleOnSomeDisplay cfg displays st)
  <> ensureWindowVisibleOnSomeDisplay cfg displays st.
Proof.
  cbv zeta.
  assert (H1 : ensureWindowVisibleOnSomeDisplay (Config None None true true)
                 [Rect.Make 0 0 640 480] (rect_obj 2000 2000 800 600)
               = rect_obj 0 0 800 600) by (vm_compute; reflexivity).
  rewrite H1.
  assert (H2 : ensureWindowVisibleOnSomeDisplay (Config None None true true)
                 [Rect.Make 0 0 640 480] (rect_obj 0 0 800 600)
               = rect_obj 0 0 640 480) by (vm_compute; reflexivity).
  rewrite H2.
  split; [reflexivity|]. split; [repeat constructor; simpl; lia|].
  split; [done|]. split; [done|].
  intros Heq. apply (f_equal (fun m => num m "width")) in Heq.
  vm_compute in Heq. discriminate.
Qed.

(** C10, as the code has it: take a boundable, screen-sized record and
    displays with the bounds Electron reports.  If some display shows a part
    of the record, a second run of [ensureWindowVisibleOnSomeDisplay] over
    the same displays returns what the first run returned, which is
    screen-sized again.  When no display shows any part of it, the first run
    returns the default record, and the second run is a run on that default
    record: the two runs agree exactly when the default record is itself
    returned unchanged. *)
Theorem reconcile_idempotent_when_visible (cfg : config) (displays : list Rect.t)
    (st : gmap string value) :
  hasBounds (Some st) = true ->
  screenSized st ->
  Forall displaySized displays ->
  let once := ensureWindowVisibleOnSomeDisplay cfg displays st in
  let twice := ensureWindowVisibleOnSomeDisplay cfg displays once in
  ((exists d, d ∈ displays /\ js_gt (partOfWindowWithinBounds st d) zero = true) ->
   twice = once /\ screenSized once) /\
  ((forall d, d ∈ displays -> partOfWindowWithinBounds st d = zero) ->
   once = resetStateToDefault cfg /\
   (twice = once <->
    ensureWindowVisibleOnSomeDisplay cfg displays (resetStateToDefault cfg)
    = resetStateToDefault cfg)).
Proof.
  intros Hb Hscreen Hdisplays once twice.
  pose proof Hb as (_ & Hw & Hh)%hasBounds_inv.
  assert (HA : 0 < area st) by (unfold area; lia).
  split.
  - intros (d & Hin & Hgt). subst twice.
    unfold js_gt in Hgt.
    rewrite partOfWindowWithinBounds_div, <- (js_div_zero (area st)), js_lt_div in Hgt
      by done.
    apply Z.ltb_lt in Hgt.
    destruct (ensure_visible cfg st Hw Hh displays d Hin Hgt)
      as (d' & Hin' & Hpos & _ & Hres).
    fold once in Hres. destruct (Z.ltb_spec (visibleArea st d') (area st)).
    + split.
      * apply visibleArea_pos_bounds in Hpos as [Hbw Hbh].
        apply (ensure_contained cfg once) with d'; [| |done|].
        -- rewrite Hres, moveWithinBounds_width. lia.
        -- rewrite Hres, moveWithinBounds_height. lia.
        -- rewrite Hres. apply moveWithinBounds_inside.
      * rewrite Hres. apply moveWithinBounds_screenSized; [done|].
        rewrite Forall_forall in Hdisplays. by apply Hdisplays, list_elem_of_In.
    + split; [rewrite Hres; exact Hres|by rewrite Hres].
  - intros Hzero.
    pose proof (reset_when_invisible cfg displays st Hb Hzero) as Hreset.
    fold once in Hreset. split; [done|]. subst twice. by rewrite Hreset.
Qed.

(** ** Validation and start-up *)

(** C6: a record that is not boundable and has [isMaximized] or
    [isFullScreen] set passes [validateState] unchanged, and
    [screen.getAllDisplays()] is not called: neither by [validateState] nor
    by the whole start-up. *)
Theorem mode_only_passes_through (cfg : config) (displays : list Rect.t)
    (wins : gmap nat window) (st : gmap string value) :
  hasBounds (Some st) = false ->
  truthy (st !! "isMaximized") || truthy (st !! "isFullScreen") = true ->
  validateState cfg displays (Some st) = (Some st, []) /\
  log (create cfg displays wins (Some st)) = [].
Proof.
  intros Hb Hmode.
  assert (Hv : validateState cfg displays (Some st) = (Some st, [])).
  { unfold validateState, isValid. rewrite Hb, orb_false_l, Hmode. done. }
  split; [done|]. unfold create. by rewrite Hv.
Qed.

Lemma mode_only_passes_through_witness :
  let st : gmap string value := {[ "isMaximized" := VBool true ]} in
  validateState (Config None None true true) [Rect.Make 0 0 1000 800] (Some st)
    = (Some st, []) /\
  log (create (Config None None true true) [Rect.Make 0 0 1000 800] ∅ (Some st)) = [].
Proof.
  apply mode_only_passes_through.
  - reflexivity.
  - reflexivity.
Defined.



(** ** Reading the window *)

(** C8: when [updateState] reads a window that is not destroyed, the record
    gets [x], [y], [width] and [height] from the live bounds if the window is
    not maximized, not minimized and not full screen, and keeps the four if
    the window is maximized, minimized or full screen; [isMaximized] and
    [isFullScreen] are taken from the window in both cases, and every other
    property is kept. *)
Theorem updateState_frame (w : world) (arg : option nat) (h : nat) (win : window) :
  match arg with Some h' => Some h' | None => winRef w end = Some h ->
  windows w !! h = Some win ->
  let st := state w in
  let st' := state (updateState arg w) in
  (isMaximized win = false -> isMinimized win = false -> isFullScreen win = false ->
     st' !! "x" = Some (int (Rect.x (getBounds win))) /\
     st' !! "y" = Some (int (Rect.y (getBounds win))) /\
     st' !! "width" = Some (int (Rect.width (getBounds win))) /\
     st' !! "height" = Some (int (Rect.height (getBounds win)))) /\
  (isMaximized win = true \/ isMinimized win = true \/ isFullScreen win = true ->
     st' !! "x" = st !! "x" /\ st' !! "y" = st !! "y" /\
     st' !! "width" = st !! "width" /\ st' !! "height" = st !! "height") /\
  st' !! "isMaximized" = Some (VBool (isMaximized win)) /\
  st' !! "isFullScreen" = Some (VBool (isFullScreen win)) /\
  forall k, k ∉ ["x"; "y"; "width"; "height"; "isMaximized"; "isFullScreen"] ->
            st' !! k = st !! k.
Proof.
  intros Hh Hwin st st'. subst st st'. unfold updateState.
  rewrite Hh. cbn [windows add_log]. rewrite Hwin. cbn [state set_state add_log].
  unfold isNormal. destruct win as [b mx mn fs]. cbn [isMaximized isMinimized
    isFullScreen getBounds].
  split; [|split; [|split; [|split]]].
  - intros -> -> ->. cbn [negb andb].
    repeat split; repeat (rewrite lookup_insert_eq || rewrite lookup_insert_ne by done);
      done.
  - intros Hmode.
    assert (negb mx && negb mn && negb fs = false) as ->
      by (destruct mx, mn, fs; try done; destruct Hmode as [? | [? | ?]]; done).
    repeat split; by rewrite !lookup_insert_ne.
  - by rewrite lookup_insert_ne, lookup_insert_eq.
  - by rewrite lookup_insert_eq.
  - intros k Hk.
    rewrite !not_elem_of_cons in Hk. destruct Hk as (? & ? & ? & ? & ? & ? & _).
    destruct (negb mx && negb mn && negb fs); by rewrite ?lookup_insert_ne.
Qed.

(** A window in normal mode at [{5, 6, 700, 500}] overwrites the bounds of
    the record; the same window minimized leaves them. *)
Lemma updateState_frame_witness :
  let st0 := <["isMaximized" := VBool true]> (rect_obj 0 0 800 600) in
  let normal := Window (Rect.Make 5 6 700 500) false false false in
  let minimized := Window (Rect.Make 5 6 700 500) false true false in
  let wn := World st0 (Some 1%nat) None {[ 1%nat := normal ]} ∅ [] 0%nat 0%nat None [] in
  let wm := World st0 (Some 1%nat) None {[ 1%nat := minimized ]} ∅ [] 0%nat 0%nat None [] in
  (state (updateState None wn) !! "x" = Some (int 5) /\
   state (updateState None wn) !! "y" = Some (int 6) /\
   state (updateState None wn) !! "width" = Some (int 700) /\
   state (updateState None wn) !! "height" = Some (int 500)) /\
  (state (updateState None wm) !! "x" = Some (int 0) /\
   state (updateState None wm) !! "y" = Some (int 0) /\
   state (updateState None wm) !! "width" = Some (int 800) /\
   state (updateState None wm) !! "height" = Some (int 600)) /\
  state (updateState None wm) !! "isMaximized" = Some (VBool false) /\
  state (updateState None wm) !! "isFullScreen" = Some (VBool false).
Proof.
  intros st0 normal minimized wn wm. split; [|split; [|split]].
  - refine (proj1 (updateState_frame wn None 1%nat normal _ _) _ _ _); reflexivity.
  - refine (proj1 (proj2 (updateState_frame wm None 1%nat minimized _ _)) _);
      [reflexivity|reflexivity|]. right. left. reflexivity.
  - refine (proj1 (proj2 (proj2 (updateState_frame wm None 1%nat minimized _ _))));
      reflexivity.
  - refine (proj1 (proj2 (proj2 (proj2 (updateState_frame wm None 1%nat minimized _ _)))));
      reflexivity.
Defined.

(** ** Listeners *)

Section Listeners.
Implicit Types (w : world) (h : nat) (e : string) (hd : handler).

Lemma listenersOf_on w h e hd h' e' :
  listenersOf (on h e hd w) h' e' =
    if decide ((h, e) = (h', e')) then listenersOf w h e ++ [hd]
    else listenersOf w h' e'.
Proof.
  unfold listenersOf, on. cbn [listeners set_listeners].
  rewrite lookup_insert. by case_decide.
Qed.

Lemma listenersOf_removeListener w h e hd h' e' :
  listenersOf (removeListener h e hd w) h' e' =
    if decide ((h, e) = (h', e'))
    then rev (remove_first hd (rev (listenersOf w h e)))
    else listenersOf w h' e'.
Proof.
  unfold listenersOf, removeListener. cbn [listeners set_listeners].
  rewrite lookup_insert. by case_decide.
Qed.

Lemma remove_last_added hd (l : list handler) :
  rev (remove_first hd (rev (l ++ [hd]))) = l.
Proof.
  rewrite rev_app_distr. simpl. rewrite decide_True by done. apply rev_involutive.
Qed.

Lemma clearTimeout_listeners t w : listeners (clearTimeout t w) = listeners w.
Proof. by destruct t. Qed.

Lemma listenersOf_clearTimeout t w h e :
  listenersOf (clearTimeout t w) h e = listenersOf w h e.
Proof. unfold listenersOf. by rewrite clearTimeout_listeners. Qed.

(** [manage] changes the window it is given and nothing else of the host,
    then registers its four listeners. *)
Lemma manage_inv cfg h w w' :
  manage cfg h w = Some w' ->
  exists ws,
    w' = set_winRef (Some h)
           (on h "closed" closedHandler
              (on h "close" closeHandler
                 (on h "move" stateChangeHandler
                    (on h "resize" stateChangeHandler (set_windows ws w))))).
Proof.
  unfold manage, win_maximize, win_setFullScreen. destruct w as [st r t ws ls ts n c sv lg].
  cbn [state windows set_windows winRef stateChangeTimer listeners timers nextTimer
       now saved log].
  intros Hm.
  repeat (case_match; simplify_option_eq); eexists; reflexivity.
Qed.

Lemma manage_listenersOf cfg h w w' h' e :
  manage cfg h w = Some w' ->
  listenersOf w' h' e =
    listenersOf w h' e ++ (if decide (h' = h) then subscribed e else []).
Proof.
  intros (ws & ->)%manage_inv.
  change (listenersOf (set_winRef (Some h) ?x) h' e) with (listenersOf x h' e).
  rewrite !listenersOf_on.
  change (listenersOf (set_windows ws w)) with (listenersOf w).
  unfold subscribed.
  repeat case_decide; simplify_eq; rewrite ?app_nil_r; done.
Qed.

Lemma manage_winRef cfg h w w' : manage cfg h w = Some w' -> winRef w' = Some h.
Proof. by intros (ws & ->)%manage_inv. Qed.

Lemma unmanage_listenersOf w h l h' e :
  winRef w = Some h ->
  (forall e0, listenersOf w h e0 = l e0 ++ subscribed e0) ->
  listenersOf (unmanage w) h' e = if decide (h' = h) then l e else listenersOf w h' e.
Proof.
  intros Href Hl. unfold unmanage. rewrite Href.
  change (listenersOf (set_winRef None ?x) h' e) with (listenersOf x h' e).
  rewrite !listenersOf_removeListener, !listenersOf_clearTimeout,
    !listenersOf_removeListener.
  repeat case_decide; simplify_eq;
    rewrite ?Hl; unfold subscribed; simpl;
    rewrite ?remove_last_added; try done.
  repeat case_decide; simplify_eq; by rewrite app_nil_r.
Qed.

End Listeners.

(** C2 as stated fails: after [manage(1)] and [manage(2)] on a fresh
    controller, the four listeners are still registered on window 1. *)
Lemma manage_again_leaves_listeners :
  let cfg := Config None None true true in
  let win := Window (Rect.Make 0 0 800 600) false false false in
  let w := create cfg [Rect.Make 0 0 1000 800] {[ 1%nat := win; 2%nat := win ]} None in
  match manage cfg 1 w ≫= manage cfg 2 with
  | Some w2 =>
      winRef w2 = Some 2%nat /\
      listenersOf w2 1 "resize" = [stateChangeHandler] /\
      listenersOf w2 1 "move" = [stateChangeHandler] /\
      listenersOf w2 1 "close" = [closeHandler] /\
      listenersOf w2 1 "closed" = [closedHandler]
  | None => False
  end.
Proof. vm_compute. repeat split; reflexivity. Qed.

(** C2, as the code has it: [manage(h2)] called after [manage(h1)], with no
    [unmanage()] in between and [h2] another window, tracks [h2], registers
    the four listeners on [h2] and leaves every listener of [h1] registered,
    the four of [manage(h1)] included.  The listeners of [h1] are removed by
    [unmanage()]: after [manage(h1)], [unmanage()] and [manage(h2)], window
    [h1] has the listeners it had before [manage(h1)]. *)
Theorem manage_again_keeps_listeners (cfg : config) (w w1 w2 : world) (h1 h2 : nat) :
  h1 <> h2 ->
  manage cfg h1 w = Some w1 ->
  manage cfg h2 w1 = Some w2 ->
  winRef w2 = Some h2 /\
  (forall e, listenersOf w2 h2 e = listenersOf w h2 e ++ subscribed e) /\
  (forall e, listenersOf w2 h1 e = listenersOf w h1 e ++ subscribed e) /\
  (forall w3, manage cfg h2 (unmanage w1) = Some w3 ->
     winRef w3 = Some h2 /\
     (forall e, listenersOf w3 h2 e = listenersOf w h2 e ++ subscribed e) /\
     (forall e, listenersOf w3 h1 e = listenersOf w h1 e)).
Proof.
  intros Hne Hm1 Hm2.
  split; [by apply manage_winRef in Hm2|]. split; [|split].
  - intros e.
    rewrite (manage_listenersOf _ _ _ _ _ _ Hm2), (manage_listenersOf _ _ _ _ _ _ Hm1).
    repeat case_decide; simplify_eq; by rewrite ?app_nil_r.
  - intros e.
    rewrite (manage_listenersOf _ _ _ _ _ _ Hm2), (manage_listenersOf _ _ _ _ _ _ Hm1).
    repeat case_decide; simplify_eq; by rewrite ?app_nil_r.
  - intros w3 Hm3.
    assert (Hun : forall h' e, listenersOf (unmanage w1) h' e = listenersOf w h' e).
    { intros h' e.
      rewrite (unmanage_listenersOf w1 h1 (listenersOf w h1)).
      - case_decide; [by subst|].
        rewrite (manage_listenersOf _ _ _ _ _ _ Hm1).
        case_decide; simplify_eq; by rewrite ?app_nil_r.
      - by apply manage_winRef in Hm1.
      - intros e0. rewrite (manage_listenersOf _ _ _ _ _ _ Hm1).
        case_decide; simplify_eq; done. }
    split; [by apply manage_winRef in Hm3|]. split.
    + intros e. rewrite (manage_listenersOf _ _ _ _ _ _ Hm3), Hun.
      case_decide; simplify_eq; done.
    + intros e. rewrite (manage_listenersOf _ _ _ _ _ _ Hm3), Hun.
      case_decide; simplify_eq; by rewrite ?app_nil_r.
Qed.

Lemma manage_again_keeps_listeners_witness :
  let cfg := Config None None true true in
  let win := Window (Rect.Make 0 0 800 600) false false false in
  let w := create cfg [Rect.Make 0 0 1000 800] {[ 1%nat := win; 2%nat := win ]} None in
  let w1 := default w (manage cfg 1 w) in
  let w2 := default w1 (manage cfg 2 w1) in
  winRef w2 = Some 2%nat /\
  (forall e, listenersOf w2 2 e = listenersOf w 2 e ++ subscribed e) /\
  (forall e, listenersOf w2 1 e = listenersOf w 1 e ++ subscribed e) /\
  (forall w3, manage cfg 2 (unmanage w1) = Some w3 ->
     winRef w3 = Some 2%nat /\
     (forall e, listenersOf w3 2 e = listenersOf w 2 e ++ subscribed e) /\
     (forall e, listenersOf w3 1 e = listenersOf w 1 e)).
Proof.
  cbv zeta.
  apply (manage_again_keeps_listeners (Config None None true true)).
  - discriminate.
  - vm_compute. reflexivity.
  - vm_compute. reflexivity.
Defined.

Lemma reconcile_idempotent_when_visible_witness :
  let cfg := Config None None true true in
  let displays := [Rect.Make 0 0 1000 800] in
  let st := rect_obj 900 0 800 600 in
  ensureWindowVisibleOnSomeDisplay cfg displays
    (ensureWindowVisibleOnSomeDisplay cfg displays st)
  = ensureWindowVisibleOnSomeDisplay cfg displays st /\
  screenSized (ensureWindowVisibleOnSomeDisplay cfg displays st).
Proof.
  intros cfg displays st.
  refine (proj1 (reconcile_idempotent_when_visible cfg displays st _ _ _) _).
  - reflexivity.
  - in_range.
  - apply Forall_cons; [in_range|apply Forall_nil].
  - exists (Rect.Make 0 0 1000 800). split.
    + apply elem_of_cons. by left.
    + reflexivity.
Defined.

(** ** The debounce timer *)

Section Debounce.
Variable h : nat.

Lemma deliver_change w i b :
  listenersOf w h "resize" = [stateChangeHandler] ->
  listenersOf w h "move" = [stateChangeHandler] ->
  change_of h i = Some b ->
  deliver i w =
    stateChangeHandler_run (set_windows (alter (with_bounds b) h (windows w)) w).
Proof.
  intros Hr Hm Hc.
  destruct i as [h' b'|h' b'| |]; simpl in Hc; try done;
    case_decide; simplify_eq; unfold deliver, emit.
  - change (listenersOf (set_windows ?ws w)) with (listenersOf w). by rewrite Hr.
  - change (listenersOf (set_windows ?ws w)) with (listenersOf w). by rewrite Hm.
Qed.

Lemma stateChangeHandler_run_spec w :
  (timers w = [] \/
   exists id due, timers w = [(id, due)] /\ stateChangeTimer w = Some id) ->
  stateChangeHandler_run w =
    World (state w) (winRef w) (Some (nextTimer w)) (windows w) (listeners w)
      [(nextTimer w, (now w + eventHandlingDelay)%nat)] (S (nextTimer w)) (now w)
      (saved w) (log w).
Proof.
  destruct w as [st r t ws ls ts n c sv lg]. cbn.
  intros [->|(id & due & -> & ->)]; unfold stateChangeHandler_run.
  - by destruct t.
  - cbn. by rewrite Nat.eqb_refl.
Qed.

Lemma no_timer_due (ts : list (nat * nat)) (t : nat) :
  Forall (fun p => (t < snd p)%nat) ts ->
  List.filter (fun p => Nat.leb (snd p) t) ts = [] /\
  List.filter (fun p => negb (Nat.leb (snd p) t)) ts = ts.
Proof.
  induction 1 as [|p ts Hp _ [IH1 IH2]]; [done|]. simpl.
  destruct (Nat.leb_spec (snd p) t); [lia|]. simpl. by rewrite IH2.
Qed.

Lemma elapse_idle w dt :
  Forall (fun p => (now w + dt < snd p)%nat) (timers w) ->
  elapse dt w = set_now (now w + dt) w.
Proof.
  intros [Hdue Hkeep]%no_timer_due. unfold elapse.
  rewrite Hdue, Hkeep. by destruct w.
Qed.

Lemma elapse_fire w id due dt :
  timers w = [(id, due)] -> (due <= now w + dt)%nat ->
  elapse dt w = set_now (now w + dt) (updateState None (set_timers [] w)).
Proof.
  intros Ht Hdue. unfold elapse. rewrite Ht. simpl.
  destruct (Nat.leb_spec due (now w + dt)); [done|lia].
Qed.

(** One event of a burst: the pending timer, if any, is replaced. *)
Lemma step_change w dt i b :
  winRef w = Some h ->
  listenersOf w h "resize" = [stateChangeHandler] ->
  listenersOf w h "move" = [stateChangeHandler] ->
  (timers w = [] \/
   exists id due, timers w = [(id, due)] /\ stateChangeTimer w = Some id /\
                  (now w + dt < due)%nat) ->
  change_of h i = Some b ->
  let w' := step w (dt, i) in
  pending h w' /\ log w' = log w /\ state w' = state w /\
  windows w' = alter (with_bounds b) h (windows w).
Proof.
  intros Href Hr Hm Ht Hc w'. subst w'. unfold step. cbn [fst snd].
  rewrite elapse_idle.
  2: { destruct Ht as [->|(id & due & -> & _ & ?)]; by repeat constructor. }
  rewrite (deliver_change _ i b); [|done|done|done].
  rewrite stateChangeHandler_run_spec.
  2: { cbn [timers stateChangeTimer set_windows set_now].
       destruct Ht as [Ht|(id & due & Ht & ? & _)]; [by left|right; by eexists _, _]. }
  unfold pending. cbn. repeat split; try done. by eexists.
Qed.

Lemma run_burst evs : forall w,
  pending h w ->
  Forall (fun ev => (fst ev < eventHandlingDelay)%nat /\ is_Some (change_of h (snd ev)))
         evs ->
  pending h (run evs w) /\ log (run evs w) = log w /\ state (run evs w) = state w /\
  forall win b, windows w !! h = with_bounds b <$> win ->
    windows (run evs w) !! h = with_bounds (last_bounds b evs) <$> win.
Proof.
  induction evs as [|[dt i] evs IH]; intros w Hp Hall; [done|].
  inversion_clear Hall as [|? ? [Hdt [b Hc]] Hall'].
  cbn [fst snd] in Hdt, Hc.
  destruct Hp as (Href & Hr & Hm & id & Ht & Hid).
  destruct (step_change w dt i b) as (Hp' & Hlog & Hst & Hwin); [done|done|done| |done|].
  { right. exists id, (now w + eventHandlingDelay)%nat. repeat split; [done|done|lia]. }
  destruct (IH (step w (dt, i)) Hp' Hall') as (Hp'' & Hlog' & Hst' & Hwin').
  unfold run in *. cbn [fold_left].
  split; [done|]. split; [congruence|]. split; [congruence|].
  intros win b0 Hb0.
  assert (Hlast : last_bounds b0 ((dt, i) :: evs) = last_bounds b evs).
  { unfold last_bounds. cbn [fold_left snd].
    destruct i; simpl in Hc; try done; case_decide; by simplify_eq. }
  rewrite Hlast. apply Hwin'. rewrite Hwin, lookup_alter_eq, Hb0.
  by destruct win.
Qed.

(** After the quiet period the pending timer runs [updateState] once. *)
Lemma elapse_pending w rest :
  pending h w -> (eventHandlingDelay <= rest)%nat ->
  log (elapse rest w) = log w ++ [GetBounds h] /\
  state (elapse rest w) = state (updateState (Some h) w) /\
  timers (elapse rest w) = [].
Proof.
  intros (Href & _ & _ & id & Ht & _) Hrest.
  rewrite (elapse_fire w id _ rest Ht) by lia.
  destruct w as [st r t ws ls ts n c sv lg]. cbn in Href. subst r.
  unfold updateState. cbn. by destruct (ws !! h).
Qed.

Lemma elapse_early w d :
  pending h w -> (d < eventHandlingDelay)%nat ->
  log (elapse d w) = log w /\ state (elapse d w) = state w.
Proof.
  intros (_ & _ & _ & id & Ht & _) Hd. rewrite elapse_idle; [done|].
  rewrite Ht. repeat constructor. simpl. lia.
Qed.

End Debounce.

(** What [updateState] stores when the window it reads is not destroyed. *)
Lemma updateState_alive (w : world) (arg : option nat) (h : nat) (win : window) :
  match arg with Some h' => Some h' | None => winRef w end = Some h ->
  windows w !! h = Some win ->
  state (updateState arg w) =
    <["isFullScreen" := VBool (isFullScreen win)]>
      (<["isMaximized" := VBool (isMaximized win)]>
         (if isNormal win then
            <["height" := int (Rect.height (getBounds win))]>
              (<["width" := int (Rect.width (getBounds win))]>
                 (<["y" := int (Rect.y (getBounds win))]>
                    (<["x" := int (Rect.x (getBounds win))]> (state w))))
          else state w)).
Proof.
  intros Hh Hwin. unfold updateState.
  rewrite Hh. cbn [windows add_log]. by rewrite Hwin.
Qed.

(** C9: the controller tracks window [h] with no timer pending.  A resize or
    move of [h] arrives, followed by any number of resizes and moves of [h],
    each less than [eventHandlingDelay] after the one before.  Then nothing
    is read while the events arrive, nor until [eventHandlingDelay] has
    passed since the last one; once it has passed, [getBounds] has been
    called exactly once and no timer is left; the record is the one
    [updateState] computes from the window as the last event left it, whose
    bounds are those of the last event: for a window in normal mode the
    record holds the bounds of the last event. *)
Theorem debounce_single_read (w : world) (h : nat) (dt0 : nat) (i0 : input)
    (b0 : Rect.t) (evs : list (nat * input)) (rest : nat) :
  tracking h w ->
  change_of h i0 = Some b0 ->
  Forall (fun ev => (fst ev < eventHandlingDelay)%nat /\ is_Some (change_of h (snd ev)))
         evs ->
  (eventHandlingDelay <= rest)%nat ->
  let w1 := run ((dt0, i0) :: evs) w in
  let w2 := elapse rest w1 in
  let b := last_bounds b0 evs in
  (log w1 = log w /\ state w1 = state w) /\
  (forall d, (d < eventHandlingDelay)%nat ->
             log (elapse d w1) = log w /\ state (elapse d w1) = state w) /\
  log w2 = log w ++ [GetBounds h] /\
  timers w2 = [] /\
  state w2 = state (updateState (Some h) w1) /\
  windows w1 !! h = with_bounds b <$> windows w !! h /\
  (forall win, windows w !! h = Some win -> isNormal win = true ->
     state w2 !! "x" = Some (int (Rect.x b)) /\
     state w2 !! "y" = Some (int (Rect.y b)) /\
     state w2 !! "width" = Some (int (Rect.width b)) /\
     state w2 !! "height" = Some (int (Rect.height b))).
Proof.
  intros (Href & Hr & Hm & Ht) Hc Hall Hrest w1 w2 b.
  destruct (step_change h w dt0 i0 b0) as (Hp & Hlog & Hst & Hwin);
    [done|done|done|by left|done|].
  destruct (run_burst h evs (step w (dt0, i0)) Hp Hall) as (Hp1 & Hlog1 & Hst1 & Hwin1).
  change (run evs (step w (dt0, i0))) with w1 in Hp1, Hlog1, Hst1, Hwin1.
  assert (Hw1 : windows w1 !! h = with_bounds b <$> windows w !! h).
  { apply Hwin1. by rewrite Hwin, lookup_alter_eq. }
  destruct (elapse_pending h w1 rest Hp1 Hrest) as (Hlog2 & Hst2 & Ht2).
  fold w2 in Hlog2, Hst2, Ht2.
  split; [split; congruence|]. split.
  { intros d Hd. destruct (elapse_early h w1 d Hp1 Hd). split; congruence. }
  split; [congruence|]. split; [done|]. split; [done|]. split; [done|].
  intros win Hwin0 Hnormal. rewrite Hwin0 in Hw1. cbn in Hw1.
  rewrite Hst2, (updateState_alive w1 (Some h) h _ eq_refl Hw1).
  change (isNormal (with_bounds b win)) with (isNormal win). rewrite Hnormal.
  cbn [getBounds with_bounds].
  repeat split; repeat (rewrite lookup_insert_eq || rewrite lookup_insert_ne by done); done.
Qed.

(** Three events on window 1, 30 and 50 milliseconds apart, then 100
    milliseconds of quiet. *)
Lemma debounce_single_read_witness :
  let cfg := Config None None true true in
  let win := Window (Rect.Make 0 0 800 600) false false false in
  let w0 := create cfg [Rect.Make 0 0 1000 800] {[ 1%nat := win ]} None in
  let w := default w0 (manage cfg 1 w0) in
  let evs := [(30%nat, Move 1 (Rect.Make 20 20 810 600));
              (50%nat, Resize 1 (Rect.Make 20 20 820 640))] in
  let w1 := run ((0%nat, Resize 1 (Rect.Make 0 0 810 600)) :: evs) w in
  let w2 := elapse 100 w1 in
  let b := last_bounds (Rect.Make 0 0 810 600) evs in
  (log w1 = log w /\ state w1 = state w) /\
  (forall d, (d < eventHandlingDelay)%nat ->
             log (elapse d w1) = log w /\ state (elapse d w1) = state w) /\
  log w2 = log w ++ [GetBounds 1] /\
  timers w2 = [] /\
  state w2 = state (updateState (Some 1%nat) w1) /\
  windows w1 !! 1%nat = with_bounds b <$> windows w !! 1%nat /\
  (forall win, windows w !! 1%nat = Some win -> isNormal win = true ->
     state w2 !! "x" = Some (int (Rect.x b)) /\
     state w2 !! "y" = Some (int (Rect.y b)) /\
     state w2 !! "width" = Some (int (Rect.width b)) /\
     state w2 !! "height" = Some (int (Rect.height b))).
Proof.
  cbv zeta.
  apply (debounce_single_read _ 1%nat 0%nat (Resize 1 (Rect.Make 0 0 810 600))
           (Rect.Make 0 0 810 600)).
  - repeat split; reflexivity.
  - reflexivity.
  - repeat constructor; try (simpl; unfold eventHandlingDelay; lia); by eexists.
  - reflexivity.
Defined.

Example debounce_example :
  let cfg := Config None None true true in
  let win := Window (Rect.Make 0 0 800 600) false false false in
  let w0 := create cfg [Rect.Make 0 0 1000 800] {[ 1%nat := win ]} None in
  let w := default w0 (manage cfg 1 w0) in
  let w2 := elapse 100 (run [(0%nat, Resize 1 (Rect.Make 0 0 810 600));
                             (30%nat, Move 1 (Rect.Make 20 20 810 600));
                             (50%nat, Resize 1 (Rect.Make 20 20 820 640))] w) in
  log w2 = [GetBounds 1] /\
  state w2 = <["isFullScreen" := VBool false]>
               (<["isMaximized" := VBool false]> (rect_obj 20 20 820 640)).
Proof. split; vm_compute; reflexivity. Qed.

(** * Further properties of the code *)

(** ** Overlap ratio *)

Section Overlap.
Implicit Types (st : gmap string value) (b d : Rect.t).

(** A whole visible area means a rectangle inside the bounds. *)
Lemma visibleArea_full_inside st b :
  0 < num st "width" -> 0 < num st "height" ->
  visibleArea st b = area st -> inside st b.
Proof.
  unfold visibleArea, area, inside. intros Hw Hh Heq.
  set (vw := Z.max 0 (Z.min (num st "x" + num st "width") (Rect.x b + Rect.width b)
                      - Z.max (num st "x") (Rect.x b))) in *.
  set (vh := Z.max 0 (Z.min (num st "y" + num st "height") (Rect.y b + Rect.height b)
                      - Z.max (num st "y") (Rect.y b))) in *.
  assert (0 <= vw <= num st "width") by (subst vw; lia).
  assert (0 <= vh <= num st "height") by (subst vh; lia).
  assert (vw = num st "width" /\ vh = num st "height") as [Hvw Hvh] by nia.
  subst vw vh. lia.
Qed.

Lemma visibleArea_zero_disjoint st b :
  0 < num st "width" -> 0 < num st "height" ->
  0 < Rect.width b -> 0 < Rect.height b ->
  visibleArea st b = 0 <-> disjoint st b.
Proof.
  unfold visibleArea, disjoint. intros Hw Hh Hbw Hbh. split.
  - intros [Hz|Hz]%Z.mul_eq_0; lia.
  - intros Hd. apply Z.mul_eq_0. lia.
Qed.

End Overlap.

(** X2: for a boundable record, the ratio with some bounds is 1 exactly when
    the rectangle of the record lies inside the bounds. *)
Theorem overlap_one_iff_inside (st : gmap string value) (b : Rect.t) :
  hasBounds (Some st) = true ->
  partOfWindowWithinBounds st b = one <-> inside st b.
Proof.
  intros (_ & Hw & Hh)%hasBounds_inv.
  assert (HA : 0 < area st) by (unfold area; lia).
  rewrite partOfWindowWithinBounds_div, <- (js_div_same (area st)) by done. split.
  - intros Heq%js_div_inj; [|done]. by apply visibleArea_full_inside.
  - intros Hin. rewrite visibleArea_inside; [done|done|lia|lia].
Qed.

Lemma overlap_one_iff_inside_witness :
  partOfWindowWithinBounds (rect_obj 100 50 800 600) (Rect.Make 0 0 1000 800) = one
  <-> inside (rect_obj 100 50 800 600) (Rect.Make 0 0 1000 800).
Proof.
  apply (overlap_one_iff_inside (rect_obj 100 50 800 600) (Rect.Make 0 0 1000 800)).
  reflexivity.
Defined.

(** X3: for a boundable, screen-sized record and the bounds of a display of
    positive width and height, the ratio is 0 exactly when the two
    rectangles share no area: the record lies left of, right of, above or
    below the bounds. *)
Theorem overlap_zero_iff_disjoint (st : gmap string value) (b : Rect.t) :
  hasBounds (Some st) = true ->
  screenSized st -> displaySized b ->
  0 < Rect.width b -> 0 < Rect.height b ->
  partOfWindowWithinBounds st b = zero <-> disjoint st b.
Proof.
  intros (_ & Hw & Hh)%hasBounds_inv _ _ Hbw Hbh.
  assert (HA : 0 < area st) by (unfold area; lia).
  rewrite partOfWindowWithinBounds_div, <- (js_div_zero (area st)) by done.
  rewrite <- visibleArea_zero_disjoint by done. split.
  - intros Heq%js_div_inj; done.
  - by intros ->.
Qed.

Lemma overlap_zero_iff_disjoint_witness :
  partOfWindowWithinBounds (rect_obj 2000 0 800 600) (Rect.Make 0 0 1000 800) = zero
  <-> disjoint (rect_obj 2000 0 800 600) (Rect.Make 0 0 1000 800).
Proof.
  apply (overlap_zero_iff_disjoint (rect_obj 2000 0 800 600) (Rect.Make 0 0 1000 800)).
  - reflexivity.
  - in_range.
  - in_range.
  - reflexivity.
  - reflexivity.
Defined.

Lemma overlap_ratio_range_witness :
  exists q, partOfWindowWithinBounds (rect_obj 900 0 800 600) (Rect.Make 0 0 1000 800)
            = Fin q /\ (Qc_of_Z 0 <= q <= Qc_of_Z 1)%Qc.
Proof.
  apply (overlap_ratio_range (rect_obj 900 0 800 600) (Rect.Make 0 0 1000 800)).
  reflexivity.
Defined.

(** ** Boundable records *)

Lemma integerBounds_inv (st : gmap string value) :
  integerBounds st = true ->
  st !! "x" = Some (int (num st "x")) /\ st !! "y" = Some (int (num st "y")) /\
  st !! "width" = Some (int (num st "width")) /\
  st !! "height" = Some (int (num st "height")).
Proof.
  unfold integerBounds. rewrite !andb_true_iff.
  intros [[[Hx Hy] Hw] Hh]. unfold num. by repeat split; apply isInteger_inv.
Qed.

Lemma hasBounds_intro (st : gmap string value) :
  integerBounds st = true -> 0 < num st "width" -> 0 < num st "height" ->
  hasBounds (Some st) = true.
Proof.
  unfold integerBounds, hasBounds. rewrite !andb_true_iff, !Z.ltb_lt. tauto.
Qed.

(** X4: [hasBounds] holds exactly for the records whose [x], [y], [width] and
    [height] are integers, with [width] and [height] positive. *)
Theorem hasBounds_iff (st : gmap string value) :
  hasBounds (Some st) = true <->
  exists x y w h,
    st !! "x" = Some (int x) /\ st !! "y" = Some (int y) /\
    st !! "width" = Some (int w) /\ st !! "height" = Some (int h) /\
    0 < w /\ 0 < h.
Proof.
  split.
  - intros (Hint & Hw & Hh)%hasBounds_inv.
    apply integerBounds_inv in Hint as (Hx & Hy & Hwi & Hhi).
    by exists (num st "x"), (num st "y"), (num st "width"), (num st "height").
  - intros (x & y & w & h & Hx & Hy & Hwi & Hhi & Hw & Hh).
    apply hasBounds_intro.
    + unfold integerBounds. by rewrite Hx, Hy, Hwi, Hhi.
    + unfold num. by rewrite Hwi.
    + unfold num. by rewrite Hhi.
Qed.

(** ** Clamping *)

Section Clamping.
Implicit Types (st : gmap string value) (b : Rect.t).

Lemma moveWithinBounds_integer b st :
  integerBounds st = true -> integerBounds (moveWithinBounds b st) = true.
Proof.
  unfold integerBounds. rewrite !andb_true_iff. intros [[[Hx Hy] Hw] Hh].
  unfold moveWithinBounds. cbv zeta.
  repeat case_match;
    repeat (rewrite lookup_insert_eq || rewrite lookup_insert_ne by done);
    rewrite ?isInteger_int, ?Hx, ?Hy; done.
Qed.

Lemma moveWithinBounds_other b st k :
  k ∉ ["x"; "y"; "width"; "height"] -> moveWithinBounds b st !! k = st !! k.
Proof.
  rewrite !not_elem_of_cons. intros (? & ? & ? & ? & _).
  unfold moveWithinBounds. cbv zeta.
  repeat case_match; by rewrite ?lookup_insert_ne.
Qed.

(** A record inside the bounds is not changed. *)
Lemma moveWithinBounds_inside_id b st :
  integerBounds st = true -> inside st b -> moveWithinBounds b st = st.
Proof.
  intros (Hx & Hy & Hw & Hh)%integerBounds_inv (? & ? & ? & ?).
  unfold moveWithinBounds. cbv zeta.
  assert (Hsw : <["width" := int (Z.min (num st "width") (Rect.width b))]> st = st).
  { apply insert_id. rewrite Z.min_l by lia. done. }
  rewrite Hsw.
  destruct (Z.ltb_spec (num st "x") (Rect.x b)); [lia|].
  destruct (Z.gtb_spec (num st "x" + num st "width") (Rect.x b + Rect.width b)); [lia|].
  assert (Hsh : <["height" := int (Z.min (num st "height") (Rect.height b))]> st = st).
  { apply insert_id. rewrite Z.min_l by lia. done. }
  rewrite Hsh.
  destruct (Z.ltb_spec (num st "y") (Rect.y b)); [lia|].
  destruct (Z.gtb_spec (num st "y" + num st "height") (Rect.y b + Rect.height b)); [lia|].
  done.
Qed.

End Clamping.

(** X5: [moveWithinBounds] is idempotent on records with integer bounds, and
    leaves a record that already lies inside the bounds as it is. *)
Theorem moveWithinBounds_idempotent (b : Rect.t) (st : gmap string value) :
  integerBounds st = true ->
  moveWithinBounds b (moveWithinBounds b st) = moveWithinBounds b st /\
  (inside st b -> moveWithinBounds b st = st).
Proof.
  intros Hint. split.
  - apply moveWithinBounds_inside_id.
    + by apply moveWithinBounds_integer.
    + apply moveWithinBounds_inside.
  - by apply moveWithinBounds_inside_id.
Qed.

Lemma moveWithinBounds_idempotent_witness :
  let b := Rect.Make 0 0 1000 800 in
  let st := <["isMaximized" := VBool true]> (rect_obj 900 (-50) 1200 900) in
  moveWithinBounds b (moveWithinBounds b st) = moveWithinBounds b st /\
  (inside st b -> moveWithinBounds b st = st).
Proof.
  apply (moveWithinBounds_idempotent (Rect.Make 0 0 1000 800)
           (<["isMaximized" := VBool true]> (rect_obj 900 (-50) 1200 900))).
  reflexivity.
Defined.

(** X6: [moveWithinBounds] never grows the window and keeps its size when it
    fits: the new width is the smaller of the old width and the width of the
    bounds, likewise for the height.  An axis on which the window already
    lies within the bounds keeps its position, whatever happens on the other
    axis.  Properties other than [x], [y], [width] and [height] are kept. *)
Theorem moveWithinBounds_shrinks_and_shifts (b : Rect.t) (st : gmap string value) :
  integerBounds st = true ->
  let st' := moveWithinBounds b st in
  num st' "width" = Z.min (num st "width") (Rect.width b) /\
  num st' "height" = Z.min (num st "height") (Rect.height b) /\
  (Rect.x b <= num st "x" /\ num st "x" + num st "width" <= Rect.x b + Rect.width b ->
   st' !! "x" = st !! "x" /\ st' !! "width" = st !! "width") /\
  (Rect.y b <= num st "y" /\ num st "y" + num st "height" <= Rect.y b + Rect.height b ->
   st' !! "y" = st !! "y" /\ st' !! "height" = st !! "height") /\
  (forall k, k ∉ ["x"; "y"; "width"; "height"] -> st' !! k = st !! k).
Proof.
  intros Hint st'.
  pose proof (moveWithinBounds_integer b st Hint) as Hint'. fold st' in Hint'.
  apply integerBounds_inv in Hint as (Hx & Hy & Hw & Hh).
  apply integerBounds_inv in Hint' as (Hx' & Hy' & Hw' & Hh').
  assert (Ew : num st' "width" = Z.min (num st "width") (Rect.width b))
    by apply moveWithinBounds_width.
  assert (Eh : num st' "height" = Z.min (num st "height") (Rect.height b))
    by apply moveWithinBounds_height.
  pose proof (moveWithinBounds_x b st) as Ex. fold st' in Ex.
  pose proof (moveWithinBounds_y b st) as Ey. fold st' in Ey.
  split; [done|]. split; [done|]. split; [|split].
  - intros [? ?]. rewrite Hx', Hw', Hx, Hw, Ex, Ew.
    destruct (Z.ltb_spec (num st "x") (Rect.x b)); [lia|].
    destruct (Z.gtb_spec (num st "x" + Z.min (num st "width") (Rect.width b))
                (Rect.x b + Rect.width b)); [lia|].
    rewrite Z.min_l by lia. done.
  - intros [? ?]. rewrite Hy', Hh', Hy, Hh, Ey, Eh.
    destruct (Z.ltb_spec (num st "y") (Rect.y b)); [lia|].
    destruct (Z.gtb_spec (num st "y" + Z.min (num st "height") (Rect.height b))
                (Rect.y b + Rect.height b)); [lia|].
    rewrite Z.min_l by lia. done.
  - intros k Hk. by apply moveWithinBounds_other.
Qed.

Lemma moveWithinBounds_shrinks_and_shifts_witness :
  let b := Rect.Make 0 0 1000 800 in
  let st := <["isMaximized" := VBool true]> (rect_obj 100 700 800 600) in
  let st' := moveWithinBounds b st in
  num st' "width" = Z.min (num st "width") 1000 /\
  num st' "height" = Z.min (num st "height") 800 /\
  (0 <= num st "x" /\ num st "x" + num st "width" <= 0 + 1000 ->
   st' !! "x" = st !! "x" /\ st' !! "width" = st !! "width") /\
  (0 <= num st "y" /\ num st "y" + num st "height" <= 0 + 800 ->
   st' !! "y" = st !! "y" /\ st' !! "height" = st !! "height") /\
  (forall k, k ∉ ["x"; "y"; "width"; "height"] -> st' !! k = st !! k).
Proof.
  apply (moveWithinBounds_shrinks_and_shifts (Rect.Make 0 0 1000 800)
           (<["isMaximized" := VBool true]> (rect_obj 100 700 800 600))).
  reflexivity.
Defined.

(** ** Which display is chosen *)

Section FirstBest.
Variable cfg : config.
Variable st : gmap string value.
Hypothesis Hwidth : 0 < num st "width".
Hypothesis Hheight : 0 < num st "height".

(** The loop ends on the first display that shows the largest part. *)
Lemma first_best_fold pre d post :
  (forall d', d' ∈ pre -> visibleArea st d' < visibleArea st d) ->
  (forall d', d' ∈ post -> visibleArea st d' <= visibleArea st d) ->
  0 < visibleArea st d ->
  fold_left (pickBest st) (pre ++ d :: post) (None, Fin (Qc_of_Z 0))
  = (Some d, js_div (visibleArea st d) (area st)).
Proof.
  intros Hpre Hpost Hpos.
  assert (HA : 0 < area st) by (unfold area; lia).
  rewrite fold_left_app. cbn [fold_left].
  destruct (best_spec st Hwidth Hheight pre) as (v & Hr & _ & _ & Hcase).
  assert (Hv : v < visibleArea st d).
  { destruct Hcase as [[_ ->]|(d' & Hin & _ & <- & _)]; [done|by apply Hpre]. }
  rewrite (pickBest_div st Hwidth Hheight _ v d Hr).
  destruct (Z.ltb_spec v (visibleArea st d)); [|lia].
  destruct (best_fold st Hwidth Hheight post
              (Some d, js_div (visibleArea st d) (area st)) (visibleArea st d))
    as (v' & Hr' & _ & _ & [[Hfst ->]|(d' & Hin & _ & <- & Hlt)]); [done| |].
  - cbn [fst] in Hfst.
    by destruct (fold_left (pickBest st) post _) as [o q]; simpl in *; subst.
  - specialize (Hpost d' Hin). lia.
Qed.

End FirstBest.

(** X7: the displays are tried in order and a later display replaces the best
    one only on a strictly larger ratio.  So when display [d] shows a part of
    a boundable, screen-sized record, every display before it shows a
    strictly smaller part and no display after it a larger one, the record
    is kept if [d] shows all of it and is moved into the bounds of [d]
    otherwise. *)
Theorem first_best_display_wins (cfg : config) (st : gmap string value)
    (pre post : list Rect.t) (d : Rect.t) :
  hasBounds (Some st) = true ->
  screenSized st ->
  Forall displaySized (pre ++ d :: post) ->
  js_gt (partOfWindowWithinBounds st d) zero = true ->
  (forall d', d' ∈ pre ->
     js_lt (partOfWindowWithinBounds st d') (partOfWindowWithinBounds st d) = true) ->
  (forall d', d' ∈ post ->
     js_gt (partOfWindowWithinBounds st d') (partOfWindowWithinBounds st d) = false) ->
  ensureWindowVisibleOnSomeDisplay cfg (pre ++ d :: post) st =
    if js_lt (partOfWindowWithinBounds st d) one then moveWithinBounds d st else st.
Proof.
  intros (_ & Hw & Hh)%hasBounds_inv _ _ Hpos Hpre Hpost.
  assert (HA : 0 < area st) by (unfold area; lia).
  unfold ensureWindowVisibleOnSomeDisplay.
  rewrite (first_best_fold st Hw Hh pre d post).
  - cbn [fst snd]. by rewrite partOfWindowWithinBounds_div.
  - intros d' Hin. specialize (Hpre d' Hin).
    rewrite !partOfWindowWithinBounds_div, js_lt_div in Hpre by done. lia.
  - intros d' Hin. specialize (Hpost d' Hin). unfold js_gt in Hpost.
    rewrite !partOfWindowWithinBounds_div, js_lt_div in Hpost by done. lia.
  - unfold js_gt in Hpos.
    rewrite partOfWindowWithinBounds_div, <- (js_div_zero (area st)), js_lt_div in Hpos
      by done.
    lia.
Qed.

(** Two displays show the same eighth of the window: it is moved into the
    first one. *)
Lemma first_best_display_wins_witness :
  let cfg := Config None None true true in
  let st := rect_obj 900 0 800 600 in
  let d := Rect.Make 0 0 1000 800 in
  ensureWindowVisibleOnSomeDisplay cfg ([Rect.Make 3000 0 500 500] ++ d :: [Rect.Make 1600 0 1000 800]) st =
    if js_lt (partOfWindowWithinBounds st d) one then moveWithinBounds d st else st.
Proof.
  apply (first_best_display_wins (Config None None true true) (rect_obj 900 0 800 600)
           [Rect.Make 3000 0 500 500] [Rect.Make 1600 0 1000 800]
           (Rect.Make 0 0 1000 800)).
  - reflexivity.
  - in_range.
  - repeat (apply Forall_cons; [in_range|]). apply Forall_nil.
  - reflexivity.
  - intros d' ->%list_elem_of_singleton. reflexivity.
  - intros d' ->%list_elem_of_singleton. reflexivity.
Defined.

(** X8: reconciling a boundable, screen-sized record against displays with
    the bounds Electron reports either resets it, and then no display shows
    any part of it, or returns a screen-sized record that lies inside the
    bounds of a display which showed a part of it, with every property other
    than [x], [y], [width] and [height] kept. *)
Theorem reconciled_is_inside_or_reset (cfg : config) (displays : list Rect.t)
    (st : gmap string value) :
  hasBounds (Some st) = true ->
  screenSized st ->
  Forall displaySized displays ->
  let st' := ensureWindowVisibleOnSomeDisplay cfg displays st in
  (st' = resetStateToDefault cfg /\
   forall d, d ∈ displays -> partOfWindowWithinBounds st d = zero) \/
  (exists d, d ∈ displays /\ js_gt (partOfWindowWithinBounds st d) zero = true /\
     inside st' d /\ screenSized st' /\
     forall k, k ∉ ["x"; "y"; "width"; "height"] -> st' !! k = st !! k).
Proof.
  intros Hb Hscreen Hdisplays st'. pose proof Hb as (Hint & Hw & Hh)%hasBounds_inv.
  assert (HA : 0 < area st) by (unfold area; lia).
  destruct (decide (Forall (fun d => visibleArea st d = 0) displays)) as [Hall|Hex].
  - left. rewrite Forall_forall in Hall. split.
    + apply ensure_reset; [done|done|]. intros d Hin. by apply Hall, list_elem_of_In.
    + intros d Hin. rewrite partOfWindowWithinBounds_div, Hall by by apply list_elem_of_In.
      by apply js_div_zero.
  - right. apply not_Forall_Exists in Hex; [|apply _].
    apply Exists_exists in Hex as (d & Hin%list_elem_of_In & Hne).
    assert (Hpos : 0 < visibleArea st d)
      by (unfold compose in Hne; pose proof (visibleArea_nonneg st d); lia).
    destruct (ensure_visible cfg st Hw Hh displays d Hin Hpos)
      as (d' & Hin' & Hpos' & _ & Hres).
    fold st' in Hres. exists d'. split; [done|]. split.
    { unfold js_gt.
      rewrite partOfWindowWithinBounds_div, <- (js_div_zero (area st)), js_lt_div by done.
      by apply Z.ltb_lt. }
    destruct (Z.ltb_spec (visibleArea st d') (area st)) as [Hlt|Hge]; rewrite Hres.
    + split; [apply moveWithinBounds_inside|]. split.
      * apply moveWithinBounds_screenSized; [done|].
        rewrite Forall_forall in Hdisplays. by apply Hdisplays, list_elem_of_In.
      * intros k Hk. by apply moveWithinBounds_other.
    + split; [|done]. apply visibleArea_full_inside; [done|done|].
      pose proof (visibleArea_le st d'). lia.
Qed.

Lemma reconciled_is_inside_or_reset_witness :
  let cfg := Config None None true true in
  let displays := [Rect.Make 0 0 1000 800] in
  let st := <["isMaximized" := VBool true]> (rect_obj 900 0 800 600) in
  let st' := ensureWindowVisibleOnSomeDisplay cfg displays st in
  (st' = resetStateToDefault cfg /\
   forall d, d ∈ displays -> partOfWindowWithinBounds st d = zero) \/
  (exists d, d ∈ displays /\ js_gt (partOfWindowWithinBounds st d) zero = true /\
     inside st' d /\ screenSized st' /\
     forall k, k ∉ ["x"; "y"; "width"; "height"] -> st' !! k = st !! k).
Proof.
  apply (reconciled_is_inside_or_reset (Config None None true true)
           [Rect.Make 0 0 1000 800]
           (<["isMaximized" := VBool true]> (rect_obj 900 0 800 600))).
  - reflexivity.
  - in_range.
  - apply Forall_cons; [in_range|apply Forall_nil].
Defined.

(** X9: when the default record is boundable (the configured default width
    and height are positive integers, or missing), reconciling a boundable
    record gives a boundable record. *)
Theorem reconciled_is_boundable (cfg : config) (displays : list Rect.t)
    (st : gmap string value) :
  hasBounds (Some (resetStateToDefault cfg)) = true ->
  hasBounds (Some st) = true ->
  hasBounds (Some (ensureWindowVisibleOnSomeDisplay cfg displays st)) = true.
Proof.
  intros Hdef Hb. pose proof Hb as (Hint & Hw & Hh)%hasBounds_inv.
  destruct (decide (Forall (fun d => visibleArea st d = 0) displays)) as [Hall|Hex].
  - rewrite Forall_forall in Hall. rewrite ensure_reset; [done|done|done|].
    intros d Hin. by apply Hall, list_elem_of_In.
  - apply not_Forall_Exists in Hex; [|apply _].
    apply Exists_exists in Hex as (d & Hin%list_elem_of_In & Hne).
    assert (Hpos : 0 < visibleArea st d)
      by (unfold compose in Hne; pose proof (visibleArea_nonneg st d); lia).
    destruct (ensure_visible cfg st Hw Hh displays d Hin Hpos)
      as (d' & _ & Hpos' & _ & ->).
    destruct (Z.ltb_spec (visibleArea st d') (area st)); [|done].
    apply visibleArea_pos_bounds in Hpos' as [Hbw Hbh].
    apply hasBounds_intro.
    + by apply moveWithinBounds_integer.
    + rewrite moveWithinBounds_width. lia.
    + rewrite moveWithinBounds_height. lia.
Qed.

Lemma reconciled_is_boundable_witness :
  hasBounds (Some (ensureWindowVisibleOnSomeDisplay (Config (Some (int 1024)) None true true)
                     [Rect.Make 0 0 640 480] (rect_obj 600 400 800 600))) = true.
Proof.
  apply (reconciled_is_boundable (Config (Some (int 1024)) None true true)
           [Rect.Make 0 0 640 480] (rect_obj 600 400 800 600)).
  - reflexivity.
  - reflexivity.
Defined.

(** X10: [resetStateToDefault] never stores a falsy width or height: a
    configured default that is missing or falsy, 0 included, is replaced by
    800 and 600, and a truthy one is stored as it is. *)
Theorem reset_size_is_truthy (cfg : config) :
  let st := resetStateToDefault cfg in
  truthy (st !! "width") = true /\ truthy (st !! "height") = true /\
  (truthy (defaultWidth cfg) = false -> st !! "width" = Some (int 800)) /\
  (truthy (defaultHeight cfg) = false -> st !! "height" = Some (int 600)) /\
  (truthy (defaultWidth cfg) = true -> st !! "width" = defaultWidth cfg) /\
  (truthy (defaultHeight cfg) = true -> st !! "height" = defaultHeight cfg).
Proof.
  intros st. subst st. unfold resetStateToDefault.
  assert (Hw : (resetStateToDefault cfg : gmap string value) !! "width"
               = Some (js_or (defaultWidth cfg) (int 800))) by done.
  assert (Hh : (resetStateToDefault cfg : gmap string value) !! "height"
               = Some (js_or (defaultHeight cfg) (int 600))) by done.
  unfold resetStateToDefault in Hw, Hh. rewrite Hw, Hh. unfold js_or.
  destruct (defaultWidth cfg) as [vw|], (defaultHeight cfg) as [vh|];
    repeat split; intros; repeat case_match; try done; congruence.
Qed.

Lemma reset_size_is_truthy_witness :
  let st := resetStateToDefault (Config (Some (int 0)) (Some (int 720)) true true) in
  st !! "width" = Some (int 800) /\ st !! "height" = Some (int 720).
Proof.
  pose proof (reset_size_is_truthy (Config (Some (int 0)) (Some (int 720)) true true))
    as (_ & _ & Hw & _ & _ & Hh).
  split.
  - apply Hw. reflexivity.
  - apply Hh. reflexivity.
Defined.

(** ** Reading a destroyed window *)

Lemma updateState_destroyed (w : world) (arg : option nat) (h : nat) :
  match arg with Some h' => Some h' | None => winRef w end = Some h ->
  windows w !! h = None ->
  updateState arg w = add_log (GetBounds h) w.
Proof.
  intros Hh Hwin. unfold updateState. rewrite Hh. cbn [windows add_log].
  by rewrite Hwin.
Qed.

(** X11: when the window to read is destroyed, [updateState] attempts one
    read and changes nothing else, and [saveState(win)] still persists the
    record as it was. *)
Theorem destroyed_window_keeps_record (w : world) (arg : option nat) (h : nat) :
  match arg with Some h' => Some h' | None => winRef w end = Some h ->
  windows w !! h = None ->
  updateState arg w = add_log (GetBounds h) w /\
  state (saveState (Some h) w) = state w /\
  saved (saveState (Some h) w) = Some (state w).
Proof.
  intros Hh Hwin. split; [by apply updateState_destroyed|].
  unfold saveState. by rewrite (updateState_destroyed w (Some h) h eq_refl Hwin).
Qed.

(** The window was closed while tracked, with a record loaded before. *)
Lemma destroyed_window_keeps_record_witness :
  let w := World (rect_obj 10 20 800 600) (Some 1%nat) None ∅ ∅ [] 0%nat 0%nat None [] in
  updateState None w = add_log (GetBounds 1) w /\
  state (saveState (Some 1%nat) w) = state w /\
  saved (saveState (Some 1%nat) w) = Some (state w).
Proof.
  apply (destroyed_window_keeps_record
           (World (rect_obj 10 20 800 600) (Some 1%nat) None ∅ ∅ [] 0%nat 0%nat None [])
           None 1%nat).
  - reflexivity.
  - reflexivity.
Defined.

(** ** Managing a window *)

Section Manage.
Implicit Types (w : world) (h : nat) (cfg : config).

Lemma manage_cases cfg h w :
  match windows w !! h with
  | Some win =>
      manage cfg h w =
        Some (set_winRef (Some h)
                (on h "closed" closedHandler
                   (on h "close" closeHandler
                      (on h "move" stateChangeHandler
                         (on h "resize" stateChangeHandler
                            (set_windows (<[h := restored cfg w win]> (windows w)) w))))))
  | None =>
      manage cfg h w =
        if restoresMaximize cfg w || restoresFullScreen cfg w then None
        else Some (set_winRef (Some h)
                     (on h "closed" closedHandler
                        (on h "close" closeHandler
                           (on h "move" stateChangeHandler
                              (on h "resize" stateChangeHandler w)))))
  end.
Proof.
  unfold manage, win_maximize, win_setFullScreen, restored, restoresMaximize,
    restoresFullScreen.
  destruct w as [st r t ws ls ts n c sv lg].
  cbn [state windows set_windows winRef stateChangeTimer listeners timers nextTimer
       now saved log].
  destruct (ws !! h) as [[b mx mn fs]|] eqn:Hwin;
    destruct (maximize cfg && truthy (st !! "isMaximized")) eqn:Hmax;
    cbn [mbind option_bind state windows set_windows getBounds isMaximized isMinimized
         isFullScreen orb];
    rewrite ?lookup_insert_eq, ?Hwin;
    destruct (fullScreen cfg && truthy (st !! "isFullScreen")) eqn:Hfull;
    cbn [mbind option_bind state windows set_windows getBounds isMaximized isMinimized
         isFullScreen orb];
    rewrite ?lookup_insert_eq, ?Hwin;
    cbn [mbind option_bind state windows set_windows getBounds isMaximized isMinimized
         isFullScreen orb];
    rewrite ?insert_insert_eq, ?orb_true_r, ?orb_false_r; try done.
  do 5 f_equal. unfold set_windows. cbn. f_equal. by rewrite insert_id.
Qed.

End Manage.

(** X12: a successful [manage(win)] maximizes the window if the [maximize]
    option is on and the record says maximized, makes it full screen if the
    [fullScreen] option is on and the record says full screen, and tracks the
    window; it changes no other window, and neither the record nor the
    timers, the persisted record or the reads made. *)
Theorem manage_restores_mode (cfg : config) (h : nat) (w w' : world) :
  manage cfg h w = Some w' ->
  winRef w' = Some h /\
  windows w' !! h = restored cfg w <$> windows w !! h /\
  (forall h', h' <> h -> windows w' !! h' = windows w !! h') /\
  state w' = state w /\ timers w' = timers w /\
  stateChangeTimer w' = stateChangeTimer w /\
  saved w' = saved w /\ log w' = log w.
Proof.
  intros Hm. pose proof (manage_cases cfg h w) as Hc. rewrite Hm in Hc.
  destruct (windows w !! h) as [win|] eqn:Hwin.
  - injection Hc as ->. cbn. rewrite lookup_insert_eq.
    repeat split; try done. intros h' Hne. by rewrite lookup_insert_ne.
  - destruct (restoresMaximize cfg w || restoresFullScreen cfg w); [done|].
    injection Hc as ->. cbn. by rewrite Hwin.
Qed.

Lemma manage_restores_mode_witness :
  let cfg := Config None None true false in
  let win := Window (Rect.Make 0 0 800 600) false false false in
  let st : gmap string value := {[ "isMaximized" := VBool true; "isFullScreen" := VBool true ]} in
  let w := create cfg [] {[ 1%nat := win; 2%nat := win ]} (Some st) in
  let w' := default w (manage cfg 1 w) in
  winRef w' = Some 1%nat /\
  windows w' !! 1%nat = restored cfg w <$> windows w !! 1%nat /\
  (forall h', h' <> 1%nat -> windows w' !! h' = windows w !! h') /\
  state w' = state w /\ timers w' = timers w /\
  stateChangeTimer w' = stateChangeTimer w /\
  saved w' = saved w /\ log w' = log w.
Proof.
  cbv zeta. apply (manage_restores_mode (Config None None true false) 1%nat).
  vm_compute. reflexivity.
Defined.

(** X13: [manage(win)] throws exactly when the window is destroyed and the
    maximized or the full-screen mode has to be restored on it. *)
Theorem manage_fails_iff (cfg : config) (h : nat) (w : world) :
  manage cfg h w = None <->
  windows w !! h = None /\
  restoresMaximize cfg w || restoresFullScreen cfg w = true.
Proof.
  pose proof (manage_cases cfg h w) as Hc.
  destruct (windows w !! h) as [win|] eqn:Hwin.
  - rewrite Hc. split; [done|]. by intros [? _].
  - rewrite Hc. destruct (restoresMaximize cfg w || restoresFullScreen cfg w).
    + by split.
    + split; [done|]. by intros [_ ?].
Qed.

Lemma manage_managed (cfg : config) (h : nat) (w w' : world) :
  (forall e, listenersOf w h e = []) ->
  manage cfg h w = Some w' ->
  managed h w'.
Proof.
  intros Hnone Hm. split; [by apply manage_winRef in Hm|].
  intros e. rewrite (manage_listenersOf _ _ _ _ _ _ Hm), Hnone.
  by rewrite decide_True.
Qed.

(** X14: on a window without listeners, a successful [manage] leaves exactly
    its four listeners, one per event; if no timer is pending, the
    controller is then ready for a burst of resize and move events. *)
Theorem manage_fresh_window (cfg : config) (h : nat) (w w' : world) :
  (forall e, listenersOf w h e = []) ->
  manage cfg h w = Some w' ->
  managed h w' /\ (timers w = [] -> tracking h w').
Proof.
  intros Hnone Hm.
  destruct (manage_managed cfg h w w' Hnone Hm) as [Href Hl].
  split; [done|]. intros Ht. repeat split; [done|by rewrite Hl|by rewrite Hl|].
  apply manage_inv in Hm as (ws & ->). done.
Qed.

Lemma manage_fresh_window_witness :
  let cfg := Config None None true true in
  let win := Window (Rect.Make 0 0 800 600) false false false in
  let w := create cfg [Rect.Make 0 0 1000 800] {[ 1%nat := win ]} None in
  let w' := default w (manage cfg 1 w) in
  managed 1 w' /\ (timers w = [] -> tracking 1 w').
Proof.
  cbv zeta. apply (manage_fresh_window (Config None None true true) 1%nat).
  - intros e. reflexivity.
  - vm_compute. reflexivity.
Defined.

(** ** Unmanaging *)

Lemma unmanage_fields (w : world) :
  winRef (unmanage w) = None /\
  state (unmanage w) = state w /\ windows (unmanage w) = windows w /\
  saved (unmanage w) = saved w /\ log (unmanage w) = log w /\
  now (unmanage w) = now w /\
  timers (unmanage w) =
    match winRef w with
    | Some _ => timers (clearTimeout (stateChangeTimer w) w)
    | None => timers w
    end.
Proof.
  unfold unmanage. destruct w as [st [r|] t ws ls ts n c sv lg]; cbn; [|done].
  by destruct t.
Qed.



(** X16: [unmanage()] with no window tracked does nothing, and a second
    [unmanage()] right after the first does nothing either. *)
Theorem unmanage_idempotent (w : world) :
  (winRef w = None -> unmanage w = w) /\
  unmanage (unmanage w) = unmanage w.
Proof.
  split.
  - intros Href. unfold unmanage. by rewrite Href.
  - pose proof (unmanage_fields w) as (Hr & _).
    generalize dependent (unmanage w). intros w1 Hr. unfold unmanage. by rewrite Hr.
Qed.

Lemma unmanage_idempotent_witness :
  let w := create (Config None None true true) [] ∅ None in
  unmanage w = w.
Proof.
  apply (proj1 (unmanage_idempotent (create (Config None None true true) [] ∅ None))).
  reflexivity.
Defined.

(** ** Closing the window *)

Section Closing.
Variable h : nat.
Implicit Types (w : world).

Lemma deliver_close w :
  listenersOf w h "close" = [closeHandler] ->
  deliver (Close h) w = updateState None w.
Proof. intros Hl. unfold deliver, emit. by rewrite Hl. Qed.

Lemma deliver_closed w :
  listenersOf w h "closed" = [closedHandler] ->
  deliver (Closed h) w =
    saveState None (unmanage (set_windows (delete h (windows w)) w)).
Proof.
  intros Hl. unfold deliver, emit.
  change (listenersOf (set_windows ?ws w)) with (listenersOf w). by rewrite Hl.
Qed.

Lemma updateState_fields arg w :
  winRef (updateState arg w) = winRef w /\
  listeners (updateState arg w) = listeners w /\
  timers (updateState arg w) = timers w /\
  stateChangeTimer (updateState arg w) = stateChangeTimer w /\
  windows (updateState arg w) = windows w /\
  now (updateState arg w) = now w /\
  saved (updateState arg w) = saved w.
Proof.
  unfold updateState.
  destruct (match arg with Some h' => Some h' | None => winRef w end); [|done].
  cbn [windows add_log]. by destruct (windows w !! _).
Qed.

End Closing.

(** X17: when the tracked window is closed for good, the [closed] listener
    removes the four listeners from it, stops tracking it, cancels the timer
    [stateChangeTimer] names and persists the record; the destroyed window
    is not read and the record is not changed. *)
Theorem closed_tears_down_and_saves (h : nat) (w : world) :
  managed h w ->
  let w' := deliver (Closed h) w in
  winRef w' = None /\
  (forall e, listenersOf w' h e = []) /\
  timers w' = timers (clearTimeout (stateChangeTimer w) w) /\
  saved w' = Some (state w) /\
  state w' = state w /\ log w' = log w /\
  windows w' = delete h (windows w).
Proof.
  intros [Href Hl] w'. subst w'.
  rewrite (deliver_closed h) by by rewrite Hl.
  set (w1 := set_windows (delete h (windows w)) w).
  pose proof (unmanage_fields w1) as (Hr & Hst & Hws & _ & Hlog & _ & Htm).
  unfold saveState. cbn [winRef state timers saved log windows set_saved].
  rewrite Hr, Hst, Hws, Hlog, Htm.
  repeat split; try done.
  - intros e. change (listenersOf (set_saved ?s ?x)) with (listenersOf x).
    rewrite (unmanage_listenersOf w1 h (fun _ => [])); [by rewrite decide_True|done|].
    intros e0. apply Hl.
  - subst w1. change (winRef (set_windows ?a w)) with (winRef w). rewrite Href.
    change (stateChangeTimer (set_windows ?a w)) with (stateChangeTimer w).
    by destruct (stateChangeTimer w).
Qed.

Lemma closed_tears_down_and_saves_witness :
  let cfg := Config None None true true in
  let win := Window (Rect.Make 0 0 800 600) false false false in
  let w0 := create cfg [Rect.Make 0 0 1000 800] {[ 1%nat := win ]} None in
  let w := default w0 (manage cfg 1 w0) in
  let w' := deliver (Closed 1) w in
  winRef w' = None /\
  (forall e, listenersOf w' 1 e = []) /\
  timers w' = timers (clearTimeout (stateChangeTimer w) w) /\
  saved w' = Some (state w) /\
  state w' = state w /\ log w' = log w /\
  windows w' = delete 1%nat (windows w).
Proof.
  cbv zeta. apply (closed_tears_down_and_saves 1%nat).
  apply (manage_managed (Config None None true true) 1%nat
           (create (Config None None true true) [Rect.Make 0 0 1000 800]
              {[ 1%nat := Window (Rect.Make 0 0 800 600) false false false ]} None)).
  - intros e. reflexivity.
  - vm_compute. reflexivity.
Defined.

(** X18: a [close] event is not debounced.  With a deferred read still
    pending from a resize or move, a [close] of the tracked window reads it
    at once; if the window is then destroyed before the timer is due, the
    [closed] listener cancels the timer and persists the record of that
    read.  Afterwards, however much time passes, the window has been read
    exactly once, the record and the persisted record are those of the
    [close]-time read, no window is tracked and no timer is left. *)
Theorem close_then_closed (h : nat) (w : world) (dt1 dt2 rest : nat) :
  managed h w ->
  pending h w ->
  (dt1 + dt2 < eventHandlingDelay)%nat ->
  let w3 := elapse rest (run [(dt1, Close h); (dt2, Closed h)] w) in
  log w3 = log w ++ [GetBounds h] /\
  state w3 = state (updateState (Some h) w) /\
  saved w3 = Some (state w3) /\
  winRef w3 = None /\ timers w3 = [].
Proof.
  intros [Href Hl] (_ & _ & _ & id & Ht & Hid) Hdt w3. subst w3.
  unfold run. cbn [fold_left]. unfold step. cbn [fst snd].
  (* the close event *)
  rewrite (elapse_idle w dt1) by (rewrite Ht; repeat constructor; simpl; lia).
  rewrite (deliver_close h) by (change (listenersOf (set_now ?t w)) with (listenersOf w);
                                by rewrite Hl).
  set (w1 := updateState None (set_now (now w + dt1) w)).
  pose proof (updateState_fields None (set_now (now w + dt1) w))
    as (Hr1 & Hls1 & Ht1 & Hid1 & Hws1 & Hnow1 & Hsv1).
  fold w1 in Hr1, Hls1, Ht1, Hid1, Hws1, Hnow1, Hsv1. cbn in Hr1, Hls1, Ht1, Hid1, Hnow1.
  assert (Hst1 : state w1 = state (updateState (Some h) w) /\
                 log w1 = log w ++ [GetBounds h]).
  { subst w1. unfold updateState. cbn [winRef set_now]. rewrite Href.
    cbn [windows add_log set_now]. by destruct (windows w !! h). }
  destruct Hst1 as [Hst1 Hlog1].
  (* the closed event *)
  rewrite (elapse_idle w1 dt2)
    by (rewrite Ht1, Ht, Hnow1; repeat constructor; simpl; lia).
  rewrite (deliver_closed h).
  2: { change (listenersOf (set_now ?t w1)) with (listenersOf w1).
       unfold listenersOf. rewrite Hls1. apply Hl. }
  set (w2 := set_windows _ (set_now _ w1)).
  pose proof (unmanage_fields w2) as (Hr2 & Hst2 & _ & _ & Hlog2 & _ & Ht2).
  assert (Htimers : timers (unmanage w2) = []).
  { rewrite Ht2. subst w2. cbn [winRef set_windows set_now]. rewrite Hr1, Href.
    cbn [stateChangeTimer set_windows set_now]. rewrite Hid1, Hid.
    cbn [clearTimeout timers set_timers set_windows set_now]. rewrite Ht1, Ht.
    cbn. by rewrite Nat.eqb_refl. }
  rewrite elapse_idle by (cbn [timers saveState set_saved]; rewrite Htimers; constructor).
  cbn [log state saved winRef timers set_now saveState set_saved].
  rewrite Hr2, Hst2, Hlog2, Htimers. subst w2.
  cbn [state log set_windows set_now]. by rewrite Hst1, Hlog1.
Qed.

Lemma close_then_closed_witness :
  let cfg := Config None None true true in
  let win := Window (Rect.Make 0 0 800 600) false false false in
  let w0 := create cfg [Rect.Make 0 0 1000 800] {[ 1%nat := win ]} None in
  let w := run [(0%nat, Move 1 (Rect.Make 30 40 800 600))] (default w0 (manage cfg 1 w0)) in
  let w3 := elapse 500 (run [(20%nat, Close 1); (10%nat, Closed 1)] w) in
  log w3 = log w ++ [GetBounds 1] /\
  state w3 = state (updateState (Some 1%nat) w) /\
  saved w3 = Some (state w3) /\
  winRef w3 = None /\ timers w3 = [].
Proof.
  cbv zeta. apply (close_then_closed 1%nat).
  - split; [reflexivity|]. intros e.
    change (listenersOf (run ?evs ?w) 1 e) with (listenersOf w 1 e).
    apply (manage_managed (Config None None true true) 1%nat
             (create (Config None None true true) [Rect.Make 0 0 1000 800]
                {[ 1%nat := Window (Rect.Make 0 0 800 600) false false false ]} None)).
    + intros e'. reflexivity.
    + vm_compute. reflexivity.
  - split; [reflexivity|]. split; [reflexivity|]. split; [reflexivity|].
    exists 0%nat. split; reflexivity.
  - unfold eventHandlingDelay. lia.
Defined.

(** X19: once the deferred read has run, the controller is back where a
    burst can start: it still tracks the window with the same listeners and
    no timer is pending, so the next resize or move is debounced like the
    first. *)
Theorem quiet_period_ends_burst (h : nat) (w : world) (rest : nat) :
  pending h w ->
  (eventHandlingDelay <= rest)%nat ->
  tracking h (elapse rest w).
Proof.
  intros (Href & Hr & Hm & id & Ht & Hid) Hrest.
  rewrite (elapse_fire w id _ rest Ht) by lia.
  pose proof (updateState_fields None (set_timers [] w))
    as (Hr1 & Hls1 & Ht1 & _).
  unfold tracking, listenersOf. cbn [winRef listeners timers set_now].
  rewrite Hr1, Hls1, Ht1. done.
Qed.

Lemma quiet_period_ends_burst_witness :
  let cfg := Config None None true true in
  let win := Window (Rect.Make 0 0 800 600) false false false in
  let w0 := create cfg [Rect.Make 0 0 1000 800] {[ 1%nat := win ]} None in
  let w := run [(0%nat, Move 1 (Rect.Make 30 40 800 600))] (default w0 (manage cfg 1 w0)) in
  tracking 1 (elapse 100 w).
Proof.
  cbv zeta. apply (quiet_period_ends_burst 1%nat).
  - split; [reflexivity|]. split; [reflexivity|]. split; [reflexivity|].
    exists 0%nat. split; reflexivity.
  - reflexivity.
Defined.
